(** * enviar-request: spreadsheet rows posted to an HTTP endpoint

    A shallow embedding of [app.py] and the properties of its
    record-submission pipeline: payload construction ([prepare_payload]),
    the retrying submitter ([make_request]), the outcome logger
    ([log_result]) and the batch loop of [main] with its cooperative
    cancellation flag ([GracefulExit.kill_now]).

    Conventions of the embedding.
    - A Python [str] is a Rocq [string] holding its UTF-8 encoding, which is
      also what [print] and a file opened with [encoding='utf-8'] emit.
    - Python integers are [Z].
    - A row of the DataFrame is a finite map from column names to cells; a
      cell is a text, an integer, the missing-value marker or [None].
      Cells of other kinds (fractional numbers, dates, booleans) are not
      covered.
    - Exceptions are values of [exn]; a computation that may raise returns a
      [result].
    - Everything the program does to the outside world (console, files,
      HTTP calls, sleeps) is recorded, in order, in the [trace] of a
      [world]; what the outside world answers is read from an
      [environment]. Writing to the console and appending to a file always
      succeed.
    - A termination signal may arrive during any event; its handler runs
      and the interrupted operation resumes.
    - [int] of a text reads ASCII numerals and ASCII white space; [repr]
      copies characters outside ASCII. *)

From Stdlib Require Import ZArith NArith String Ascii List Bool Lia DecimalString DecimalPos.
From stdpp Require Import base option list gmap strings.
Import ListNotations.

Local Open Scope string_scope.
Local Open Scope Z_scope.

(** ** Python values and builtins used by the program *)

Module Py.

(** Exceptions, with the part of the class hierarchy that the [except]
    clauses of the program distinguish: [Timeout] is a subclass of
    [RequestException]; [RequestException] here stands for the instances
    that are not timeouts; [OtherException] is any remaining subclass of
    [Exception]. Each carries the text that [str(e)] returns. *)
Inductive exn : Type :=
| KeyError (msg : string)
| ValueError (msg : string)
| TypeError (msg : string)
| AttributeError (msg : string)
| Timeout (msg : string)
| RequestException (msg : string)
| OtherException (msg : string).

(** [str(e)] *)
Definition str_exn (e : exn) : string :=
  match e with
  | KeyError m | ValueError m | TypeError m | AttributeError m
  | Timeout m | RequestException m | OtherException m => m
  end.

Inductive result (A : Type) : Type :=
| Ret (a : A)
| Raise (e : exn).
Arguments Ret {A} a.
Arguments Raise {A} e.

Definition rbind {A B} (r : result A) (k : A -> result B) : result B :=
  match r with
  | Ret a => k a
  | Raise e => Raise e
  end.

(** Characters that have no literal spelling inside a Rocq string. *)
Definition dquote : string := String (ascii_of_nat 34) "".
Definition squote : string := String (ascii_of_nat 39) "".
Definition backslash : string := String (ascii_of_nat 92) "".
Definition newline : string := String (ascii_of_nat 10) "".

(** [str(n)] for an integer. *)
Definition str_int (z : Z) : string := NilZero.string_of_int (Z.to_int z).

(** Lowercase hexadecimal digits, most significant first, [width] of them. *)
Definition hex_digit (n : N) : ascii :=
  if (n <? 10)%N then ascii_of_N (48 + n) else ascii_of_N (87 + n).

Fixpoint hex_fixed (width : nat) (n : N) : string :=
  match width with
  | O => ""
  | S w => hex_fixed w (N.shiftr n 4) ++ String (hex_digit (N.land n 15)) ""
  end.

(** *** [str.split(',')] *)

(** [s.split(',')]: one piece more than there are commas; the empty string
    splits into the one-element list holding the empty string. *)
Fixpoint split_comma (s : string) : list string :=
  match s with
  | EmptyString => [EmptyString]
  | String c rest =>
      if Ascii.eqb c ","%char then EmptyString :: split_comma rest
      else match split_comma rest with
           | [] => [String c EmptyString]
           | piece :: pieces => String c piece :: pieces
           end
  end.

(** *** [repr] of a string *)

Fixpoint contains_char (c : ascii) (s : string) : bool :=
  match s with
  | EmptyString => false
  | String d rest => Ascii.eqb c d || contains_char c rest
  end.

(** One character of [repr(s)] with [quote] as the chosen delimiter.
    Bytes of a multi-byte UTF-8 sequence stand for printable characters and
    are copied. *)
Definition repr_char (quote : ascii) (c : ascii) : string :=
  let n := N_of_ascii c in
  if Ascii.eqb c quote || Ascii.eqb c (ascii_of_nat 92) then backslash ++ String c ""
  else if (n =? 9)%N then backslash ++ "t"
  else if (n =? 10)%N then backslash ++ "n"
  else if (n =? 13)%N then backslash ++ "r"
  else if (n <? 32)%N || (n =? 127)%N then backslash ++ "x" ++ hex_fixed 2 n
  else String c "".

Fixpoint repr_body (quote : ascii) (s : string) : string :=
  match s with
  | EmptyString => ""
  | String c rest => repr_char quote c ++ repr_body quote rest
  end.

(** [repr(s)]: single quotes, unless the text has a single quote and no
    double quote. *)
Definition repr (s : string) : string :=
  let sq := ascii_of_nat 39 in
  let dq := ascii_of_nat 34 in
  let quote := if contains_char sq s && negb (contains_char dq s) then dq else sq in
  String quote (repr_body quote s) ++ String quote "".

(** *** [int(text)] *)

(** ASCII white space as [int] skips it around a literal: tab, line feed,
    vertical tab, form feed, carriage return and space. *)
Definition is_space (c : ascii) : bool :=
  let n := N_of_ascii c in
  ((9 <=? n) && (n <=? 13) || (n =? 32))%N.

Definition is_digit (c : ascii) : bool :=
  let n := N_of_ascii c in ((48 <=? n) && (n <=? 57))%N.

Fixpoint lstrip (s : string) : string :=
  match s with
  | String c rest => if is_space c then lstrip rest else s
  | EmptyString => EmptyString
  end.

Fixpoint rstrip (s : string) : string :=
  match s with
  | EmptyString => EmptyString
  | String c rest =>
      match rstrip rest with
      | EmptyString => if is_space c then EmptyString else String c EmptyString
      | kept => String c kept
      end
  end.

(** Digits of a decimal literal; single underscores may sit between two
    digits. [after_digit] tells whether the previous character was a digit.
    Returns the value and the number of digits read. *)
Fixpoint digits_value (s : string) (after_digit : bool) (acc : Z) (count : nat)
  : option (Z * nat) :=
  match s with
  | EmptyString => if after_digit then Some (acc, count) else None
  | String c rest =>
      if is_digit c
      then digits_value rest true (10 * acc + Z.of_N (N_of_ascii c - 48)) (S count)
      else if Ascii.eqb c "_"%char && after_digit
      then match rest with
           | String d _ => if is_digit d then digits_value rest false acc count else None
           | EmptyString => None
           end
      else None
  end.

(** The interpreter's limit on the digits of an integer literal read from
    text ([sys.int_info.default_max_str_digits]). *)
Definition max_str_digits : nat := 4300.

Definition int_of_str (s : string) : result Z :=
  let invalid := ValueError ("invalid literal for int() with base 10: "
                             ++ String.substring 0 200 (repr s)) in
  let body := rstrip (lstrip s) in
  let '(negative, unsigned) :=
    match body with
    | String "-"%char rest => (true, rest)
    | String "+"%char rest => (false, rest)
    | _ => (false, body)
    end in
  match digits_value unsigned false 0 O with
  | None => Raise invalid
  | Some (v, count) =>
      if (max_str_digits <? count)%nat
      then Raise (ValueError ("Exceeds the limit (4300 digits) for integer string conversion: value has "
                              ++ str_int (Z.of_nat count)
                              ++ " digits; use sys.set_int_max_str_digits() to increase the limit"))
      else Ret (if negative then - v else v)
  end.

(** *** [json.dumps] of strings, integers and lists of strings *)

(** Code points of a UTF-8 byte sequence. A byte that does not start a
    well-formed sequence is passed on as it is. *)
Definition is_cont (b : N) : bool := ((128 <=? b) && (b <? 192))%N.

Fixpoint utf8_decode (fuel : nat) (bs : list N) : list N :=
  match fuel with
  | O => []
  | S fuel' =>
      match bs with
      | [] => []
      | b0 :: b1 :: b2 :: b3 :: rest =>
          if (b0 <? 128)%N then b0 :: utf8_decode fuel' (b1 :: b2 :: b3 :: rest)
          else if (192 <=? b0)%N && (b0 <? 224)%N && is_cont b1
          then (N.land b0 31 * 64 + N.land b1 63)%N :: utf8_decode fuel' (b2 :: b3 :: rest)
          else if (224 <=? b0)%N && (b0 <? 240)%N && is_cont b1 && is_cont b2
          then (N.land b0 15 * 4096 + N.land b1 63 * 64 + N.land b2 63)%N
               :: utf8_decode fuel' (b3 :: rest)
          else if (240 <=? b0)%N && (b0 <? 248)%N && is_cont b1 && is_cont b2 && is_cont b3
          then (N.land b0 7 * 262144 + N.land b1 63 * 4096 + N.land b2 63 * 64 + N.land b3 63)%N
               :: utf8_decode fuel' rest
          else b0 :: utf8_decode fuel' (b1 :: b2 :: b3 :: rest)
      | b0 :: b1 :: b2 :: rest =>
          if (b0 <? 128)%N then b0 :: utf8_decode fuel' (b1 :: b2 :: rest)
          else if (192 <=? b0)%N && (b0 <? 224)%N && is_cont b1
          then (N.land b0 31 * 64 + N.land b1 63)%N :: utf8_decode fuel' (b2 :: rest)
          else if (224 <=? b0)%N && (b0 <? 240)%N && is_cont b1 && is_cont b2
          then (N.land b0 15 * 4096 + N.land b1 63 * 64 + N.land b2 63)%N
               :: utf8_decode fuel' rest
          else b0 :: utf8_decode fuel' (b1 :: b2 :: rest)
      | b0 :: b1 :: rest =>
          if (b0 <? 128)%N then b0 :: utf8_decode fuel' (b1 :: rest)
          else if (192 <=? b0)%N && (b0 <? 224)%N && is_cont b1
          then (N.land b0 31 * 64 + N.land b1 63)%N :: utf8_decode fuel' rest
          else b0 :: utf8_decode fuel' (b1 :: rest)
      | b0 :: rest => b0 :: utf8_decode fuel' rest
      end
  end.

Fixpoint bytes_of (s : string) : list N :=
  match s with
  | EmptyString => []
  | String c rest => N_of_ascii c :: bytes_of rest
  end.

Definition code_points (s : string) : list N :=
  utf8_decode (String.length s) (bytes_of s).

(** One code point inside a JSON string, with [ensure_ascii] on. *)
Definition json_escape (c : N) : string :=
  if (c =? 34)%N then backslash ++ dquote
  else if (c =? 92)%N then backslash ++ backslash
  else if (c =? 10)%N then backslash ++ "n"
  else if (c =? 13)%N then backslash ++ "r"
  else if (c =? 9)%N then backslash ++ "t"
  else if (c =? 8)%N then backslash ++ "b"
  else if (c =? 12)%N then backslash ++ "f"
  else if (32 <=? c)%N && (c <=? 126)%N then String (ascii_of_N c) ""
  else if (c <? 65536)%N then backslash ++ "u" ++ hex_fixed 4 c
  else let v := (c - 65536)%N in
       backslash ++ "u" ++ hex_fixed 4 (55296 + N.shiftr v 10)%N
       ++ backslash ++ "u" ++ hex_fixed 4 (56320 + N.land v 1023)%N.

Definition json_str (s : string) : string :=
  dquote ++ String.concat "" (map json_escape (code_points s)) ++ dquote.

Definition json_int (z : Z) : string := str_int z.

Definition json_list_str (l : list string) : string :=
  "[" ++ String.concat ", " (map json_str l) ++ "]".

End Py.

Import Py.

(** ** Data model *)

(** A cell of the spreadsheet as pandas hands it over: text, an integer,
    the missing-value marker (the float NaN that an empty cell becomes) or
    [None]. *)
Inductive cell : Type :=
| CStr (s : string)
| CInt (z : Z)
| CNaN
| CNone.

(** One row: column name to cell. *)
Abbreviation row := (gmap string cell).

(** The dictionary that [prepare_payload] returns; the fields are in the
    order in which the dictionary literal lists its keys. *)
Record payload : Type := {
  name : string;
  contact_name : string;
  x_studio_tese : string;
  user_id : Z;
  team_id : Z;
  tag_ids : list string;
  stage_id : Z
}.

(** [requests.Response], of which the program reads [status_code] only. *)
Record response : Type := { status_code : Z }.

(** Truth value of a response object: [Response.__bool__] is [Response.ok],
    false for the client and server error ranges. *)
Definition response_ok (r : response) : bool :=
  negb ((400 <=? status_code r) && (status_code r <? 600)).

(** [datetime.now()] *)
Record datetime : Type := {
  year : Z; month : Z; day : Z; hour : Z; minute : Z; second : Z
}.

(** What the program does to the outside world. *)
Inductive event : Type :=
| EvPrint (text : string)
| EvAppend (path : string) (text : string)
| EvPost (url : string) (body : payload) (timeout : Z)
| EvSleep (seconds : Z).

(** The state of a run: the flag of [GracefulExit] and everything done so
    far, oldest first. *)
Record world : Type := {
  kill_now : bool;
  trace : list event
}.

(** Events other than console output: HTTP calls, sleeps, file appends. *)
Definition is_effect (e : event) : bool :=
  match e with
  | EvPrint _ => false
  | _ => true
  end.

Definition effects (t : list event) : list event := List.filter is_effect t.

Definition posts (t : list event) : list event :=
  List.filter (fun e => match e with EvPost _ _ _ => true | _ => false end) t.

Definition sleeps (t : list event) : list event :=
  List.filter (fun e => match e with EvSleep _ => true | _ => false end) t.

(** The lines appended to the log files, as (path, text), oldest first. *)
Fixpoint appends (t : list event) : list (string * string) :=
  match t with
  | [] => []
  | EvAppend path text :: rest => (path, text) :: appends rest
  | _ :: rest => appends rest
  end.

(** The lines appended to one file. *)
Definition file_lines (path : string) (t : list event) : list string :=
  map snd (List.filter (fun a => String.eqb (fst a) path) (appends t)).

(** What the outside world answers.
    - [net n]: how the [n]-th call of [requests.post] of the run ends, a
      response or an exception;
    - [interrupted n]: whether SIGINT or SIGTERM is delivered while the
      [n]-th event of the run is happening;
    - [clock n]: the wall-clock time after [n] effects;
    - [excel path]: what [pd.read_excel] returns or raises. *)
Record environment : Type := {
  net : nat -> result response;
  interrupted : nat -> bool;
  clock : nat -> datetime;
  excel : string -> result (list row)
}.

(** ** The state-and-exception monad of the program *)

Definition M (A : Type) : Type := world -> result A * world.

Definition ret {A} (a : A) : M A := fun w => (Ret a, w).

Definition raise {A} (e : exn) : M A := fun w => (Raise e, w).

Definition bind {A B} (m : M A) (k : A -> M B) : M B :=
  fun w => match m w with
           | (Ret a, w') => k a w'
           | (Raise e, w') => (Raise e, w')
           end.

(** [try: body except Exception as e: handler(e)] *)
Definition try_except {A} (body : M A) (handler : exn -> M A) : M A :=
  fun w => match body w with
           | (Ret a, w') => (Ret a, w')
           | (Raise e, w') => handler e w'
           end.

Declare Scope prog_scope.
Delimit Scope prog_scope with prog.
Notation "x <- m ;; k" := (bind m (fun x => k))
  (at level 100, m at next level, right associativity) : prog_scope.
Notation "m ;; k" := (bind m (fun _ => k))
  (at level 100, right associativity) : prog_scope.
Local Open Scope prog_scope.

(** ** GracefulExit *)

(** [GracefulExit.exit_gracefully], the handler of SIGINT and SIGTERM. *)
Definition exit_gracefully (w : world) : world :=
  {| kill_now := true;
     trace := trace w ++
       [EvPrint (newline ++ "Recebido sinal de interrupção. Finalizando graciosamente...")] |}.

(** An event happens; if a signal arrives meanwhile the handler runs and
    the interrupted operation then carries on. *)
Definition emit (env : environment) (e : event) (w : world) : world :=
  let w' := {| kill_now := kill_now w; trace := trace w ++ [e] |} in
  if interrupted env (length (trace w)) then exit_gracefully w' else w'.

Definition print (env : environment) (text : string) : M unit :=
  fun w => (Ret tt, emit env (EvPrint text) w).

(** [time.sleep(seconds)] *)
Definition sleep (env : environment) (seconds : Z) : M unit :=
  fun w => (Ret tt, emit env (EvSleep seconds) w).

(** [requests.post(url, json=body, headers=..., timeout=timeout)] *)
Definition post (env : environment) (url : string) (body : payload) (timeout : Z)
  : M response :=
  fun w => (net env (length (posts (trace w))), emit env (EvPost url body timeout) w).

(** [f.write(text)] on a file opened for appending. *)
Definition append_file (env : environment) (path text : string) : M unit :=
  fun w => (Ret tt, emit env (EvAppend path text) w).

(** [datetime.now()] *)
Definition now (env : environment) : M datetime :=
  fun w => (Ret (clock env (length (effects (trace w)))), w).

(** ** Formatting *)

(** A number left-padded with zeros to [width] characters. *)
Definition zero_pad (width : nat) (z : Z) : string :=
  let s := str_int z in
  String.concat "" (repeat "0" (width - String.length s)) ++ s.

(** [strftime("%Y%m%d_%H%M%S")] *)
Definition strftime_compact (d : datetime) : string :=
  zero_pad 4 (year d) ++ zero_pad 2 (month d) ++ zero_pad 2 (day d) ++ "_"
  ++ zero_pad 2 (hour d) ++ zero_pad 2 (minute d) ++ zero_pad 2 (second d).

(** [strftime("%Y-%m-%d %H:%M:%S")] *)
Definition strftime_iso (d : datetime) : string :=
  zero_pad 4 (year d) ++ "-" ++ zero_pad 2 (month d) ++ "-" ++ zero_pad 2 (day d) ++ " "
  ++ zero_pad 2 (hour d) ++ ":" ++ zero_pad 2 (minute d) ++ ":" ++ zero_pad 2 (second d).

(** [json.dumps(data)] for a payload dictionary. *)
Definition json_dumps (data : payload) : string :=
  "{" ++ json_str "name" ++ ": " ++ json_str (name data)
  ++ ", " ++ json_str "contact_name" ++ ": " ++ json_str (contact_name data)
  ++ ", " ++ json_str "x_studio_tese" ++ ": " ++ json_str (x_studio_tese data)
  ++ ", " ++ json_str "user_id" ++ ": " ++ json_int (user_id data)
  ++ ", " ++ json_str "team_id" ++ ": " ++ json_int (team_id data)
  ++ ", " ++ json_str "tag_ids" ++ ": " ++ json_list_str (tag_ids data)
  ++ ", " ++ json_str "stage_id" ++ ": " ++ json_int (stage_id data)
  ++ "}".

(** [str(x)] for an optional text: [str(None)] is the word None. *)
Definition str_opt (x : option string) : string :=
  match x with
  | Some s => s
  | None => "None"
  end.

(** ** The program *)

(** *** create_log_files *)

Record log_files : Type := { success_file : string; failure_file : string }.

Definition create_log_files (env : environment) : M log_files :=
  d <- now env ;;
  let timestamp := strftime_compact d in
  ret {| success_file := "successful_requests_" ++ timestamp ++ ".txt";
         failure_file := "failed_requests_" ++ timestamp ++ ".txt" |}.

(** *** read_excel_file *)

Definition read_excel_file (env : environment) (file_path : string)
  : M (option (list row)) :=
  match excel env file_path with
  | Ret df => ret (Some df)
  | Raise e => print env ("Erro ao ler arquivo Excel: " ++ str_exn e) ;; ret None
  end.

(** *** log_result *)

(** The test [if response:] is false for [None] and, for a response
    object, as true as [Response.ok]. *)
Definition log_result (env : environment) (file_path : string) (data : payload)
    (response : option response) (error : option string) : M unit :=
  d <- now env ;;
  let timestamp := strftime_iso d in
  match response with
  | Some r =>
      if response_ok r
      then append_file env file_path
             ("[" ++ timestamp ++ "] Sucesso - Dados: " ++ json_dumps data
              ++ " - Status: " ++ str_int (status_code r) ++ newline)
      else append_file env file_path
             ("[" ++ timestamp ++ "] Falha - Dados: " ++ json_dumps data
              ++ " - Erro: " ++ str_opt error ++ newline)
  | None =>
      append_file env file_path
        ("[" ++ timestamp ++ "] Falha - Dados: " ++ json_dumps data
         ++ " - Erro: " ++ str_opt error ++ newline)
  end.

(** *** prepare_payload *)

(** [row[col]]: a column that the row does not have raises [KeyError]. *)
Definition getitem (r : row) (col : string) : result cell :=
  match r !! col with
  | Some c => Ret c
  | None => Raise (KeyError (repr col))
  end.

(** [str(cell)] *)
Definition str_cell (c : cell) : string :=
  match c with
  | CStr s => s
  | CInt z => str_int z
  | CNaN => "nan"
  | CNone => "None"
  end.

(** [int(cell)] *)
Definition int_cell (c : cell) : result Z :=
  match c with
  | CStr s => int_of_str s
  | CInt z => Ret z
  | CNaN => Raise (ValueError "cannot convert float NaN to integer")
  | CNone => Raise (TypeError
      ("int() argument must be a string, a bytes-like object or a real number, not "
       ++ squote ++ "NoneType" ++ squote))
  end.

(** [pd.notna(cell)] *)
Definition notna (c : cell) : bool :=
  match c with
  | CNaN | CNone => false
  | CStr _ | CInt _ => true
  end.

Notation "x <~ r ;; k" := (rbind r (fun x => k))
  (at level 100, r at next level, right associativity) : prog_scope.

(** The dictionary literal inside the [try] of [prepare_payload]: the
    values are computed in the order of the keys and the first exception
    ends the construction. *)
Definition build_payload (r : row) : result payload :=
  c_name <~ getitem r "Name" ;;
  c_company <~ getitem r "Company Name" ;;
  c_tese <~ getitem r "x_studio_tese" ;;
  c_user <~ getitem r "user_id" ;;
  v_user <~ int_cell c_user ;;
  c_team <~ getitem r "team_id" ;;
  v_team <~ int_cell c_team ;;
  c_tags <~ getitem r "tag_ids" ;;
  let v_tags := match c_tags with
                | CStr s => split_comma s
                | _ => []
                end in
  c_stage <~ getitem r "stage_id" ;;
  v_stage <~ (if notna c_stage then int_cell c_stage else Ret 10) ;;
  Ret {| name := str_cell c_name;
         contact_name := str_cell c_company;
         x_studio_tese := str_cell c_tese;
         user_id := v_user;
         team_id := v_team;
         tag_ids := v_tags;
         stage_id := v_stage |}.

(** The whole function: any exception of the construction is printed and
    turned into [None]. *)
Definition prepare_payload (env : environment) (r : row) : M (option payload) :=
  match build_payload r with
  | Ret p => ret (Some p)
  | Raise e => print env ("Erro ao preparar payload: " ++ str_exn e) ;; ret None
  end.

(** *** make_request *)

(** [range(n)] *)
Definition range (n : Z) : list Z := map Z.of_nat (seq 0 (Z.to_nat n)).

(** The [for attempt in range(max_retries)] loop over the attempts still
    to make. When the loop runs out the function ends without a [return],
    that is, it returns [None]. *)
Fixpoint attempt_loop (env : environment) (url : string) (body : payload)
    (timeout max_retries : Z) (attempts : list Z) : M (option response) :=
  match attempts with
  | [] => ret None
  | attempt :: rest =>
      try_except
        (response <- post env url body timeout ;; ret (Some response))
        (fun e =>
           match e with
           | Timeout _ =>
               if attempt =? max_retries - 1 then raise e
               else
                 print env ("Timeout na tentativa " ++ str_int (attempt + 1) ++ "/"
                            ++ str_int max_retries ++ ". Tentando novamente...") ;;
                 sleep env 1 ;;
                 attempt_loop env url body timeout max_retries rest
           | RequestException msg =>
               if attempt =? max_retries - 1 then raise e
               else
                 print env ("Erro na tentativa " ++ str_int (attempt + 1) ++ "/"
                            ++ str_int max_retries ++ ": " ++ msg
                            ++ ". Tentando novamente...") ;;
                 sleep env 1 ;;
                 attempt_loop env url body timeout max_retries rest
           | _ => raise e
           end)
  end.

Definition make_request (env : environment) (url : string) (body : payload)
    (timeout max_retries : Z) : M (option response) :=
  attempt_loop env url body timeout max_retries (range max_retries).

Definition default_timeout : Z := 45.
Definition default_max_retries : Z := 3.

(** *** main *)

Definition API_URL : string := "http://127.0.0.1:8000/opportunities/".
Definition EXCEL_FILE : string := "crm.xlsx".

(** [response.status_code]; [None] has no such attribute. *)
Definition get_status_code (response : option response) : M Z :=
  match response with
  | Some r => ret (status_code r)
  | None => raise (AttributeError
      (squote ++ "NoneType" ++ squote ++ " object has no attribute "
       ++ squote ++ "status_code" ++ squote))
  end.

(** The check of the response, the statements of the [try] block that
    follow the call of [make_request]. *)
Definition check_response (env : environment) (files : log_files) (index : Z)
    (data : payload) (response : option response) : M unit :=
  status <- get_status_code response ;;
  if (status =? 200) || (status =? 201)
  then
    log_result env (success_file files) data response None ;;
    print env ("✓ Sucesso ao processar linha " ++ str_int (index + 1))
  else
    let error_msg := "Status code: " ++ str_int status in
    log_result env (failure_file files) data None (Some error_msg) ;;
    print env ("✗ Falha ao processar linha " ++ str_int (index + 1) ++ ": " ++ error_msg).

(** The three [except] clauses of the loop body, tried in order. *)
Definition exception_message (e : exn) : string :=
  match e with
  | Timeout _ => "Timeout na requisição"
  | RequestException msg => "Erro na requisição: " ++ msg
  | _ => "Erro inesperado: " ++ str_exn e
  end.

Definition on_exception (env : environment) (files : log_files) (index : Z)
    (data : payload) (e : exn) : M unit :=
  let error_msg := exception_message e in
  log_result env (failure_file files) data None (Some error_msg) ;;
  print env ("✗ Erro ao processar linha " ++ str_int (index + 1) ++ ": " ++ error_msg).

(** The [try] statement of the loop body from the call of the submitter
    on, for a payload that was built; [request] is that call. *)
Definition submit (env : environment) (files : log_files) (index : Z)
    (data : payload) (request : M (option response)) : M unit :=
  try_except
    (response <- request ;; check_response env files index data response)
    (on_exception env files index data).

(** The body of the loop for one row, after the test of the flag.
    [prepare_payload] handles its own exceptions, so the [except] clauses of
    the loop only ever see what is raised once [payload] is bound. *)
Definition process_row (env : environment) (files : log_files) (total_rows : Z)
    (index : Z) (r : row) : M unit :=
  print env (newline ++ "Processando linha " ++ str_int (index + 1) ++ "/"
             ++ str_int total_rows) ;;
  built <- prepare_payload env r ;;
  match built with
  | None => ret tt
  | Some data =>
      submit env files index data
        (make_request env API_URL data default_timeout default_max_retries)
  end.

(** [for index, row in df.iterrows()], from row number [index] on. *)
Fixpoint iterrows (env : environment) (files : log_files) (total_rows : Z)
    (index : nat) (rows : list row) : M unit :=
  match rows with
  | [] => ret tt
  | r :: rest =>
      fun w =>
        if kill_now w
        then print env "Interrompendo processamento..." w
        else (process_row env files total_rows (Z.of_nat index) r ;;
              iterrows env files total_rows (S index) rest) w
  end.

Definition main (env : environment) : M unit :=
  fun w0 =>
    let w := {| kill_now := false; trace := trace w0 |} in
    (files <- create_log_files env ;;
     print env ("Arquivos de log criados: " ++ success_file files ++ " e "
                ++ failure_file files) ;;
     df <- read_excel_file env EXCEL_FILE ;;
     match df with
     | None => ret tt
     | Some rows =>
         let total_rows := Z.of_nat (length rows) in
         print env ("Total de linhas a processar: " ++ str_int total_rows) ;;
         iterrows env files total_rows 0 rows ;;
         print env (newline ++ "Processamento finalizado!")
     end) w.

(** The state in which the program starts. *)
Definition start : world := {| kill_now := false; trace := [] |}.

(** ** Observations used in the statements *)

(** The console note of the signal handler, when a signal arrives during
    event number [n]. *)
Definition signal_note (env : environment) (n : nat) : list event :=
  if interrupted env n
  then [EvPrint (newline ++ "Recebido sinal de interrupção. Finalizando graciosamente...")]
  else [].

(** The same outside world with no signal ever delivered. *)
Definition without_signals (env : environment) : environment :=
  {| net := net env; interrupted := fun _ => false;
     clock := clock env; excel := excel env |}.

(** The text that [log_result] writes. *)
Definition success_line (d : datetime) (data : payload) (status : Z) : string :=
  "[" ++ strftime_iso d ++ "] Sucesso - Dados: " ++ json_dumps data
  ++ " - Status: " ++ str_int status ++ newline.

Definition failure_line (d : datetime) (data : payload) (description : string) : string :=
  "[" ++ strftime_iso d ++ "] Falha - Dados: " ++ json_dumps data
  ++ " - Erro: " ++ description ++ newline.

(** The wall-clock time at which the next line would be stamped. *)
Definition time_of (env : environment) (w : world) : datetime :=
  clock env (length (effects (trace w))).

(** The state of the run once the loop has announced a row on the console
    and is about to build its payload. *)
Definition announced (env : environment) (total_rows index : Z) (w : world) : world :=
  emit env (EvPrint (newline ++ "Processando linha " ++ str_int (index + 1) ++ "/"
                     ++ str_int total_rows)) w.

(** The log entry, as (path, text), that the loop writes for the outcome
    [r] of the submitter, reached in state [w]. *)
Definition outcome_entry (env : environment) (files : log_files) (data : payload)
    (r : result (option response)) (w : world) : string * string :=
  match r with
  | Ret (Some resp) =>
      if (status_code resp =? 200) || (status_code resp =? 201)
      then (success_file files, success_line (time_of env w) data (status_code resp))
      else (failure_file files,
            failure_line (time_of env w) data ("Status code: " ++ str_int (status_code resp)))
  | Ret None =>
      (failure_file files,
       failure_line (time_of env w) data
         ("Erro inesperado: " ++ squote ++ "NoneType" ++ squote
          ++ " object has no attribute " ++ squote ++ "status_code" ++ squote))
  | Raise e => (failure_file files, failure_line (time_of env w) data (exception_message e))
  end.

(** Two states of a run that differ in console output and in the flag
    only. *)
Definition same_effects (w w' : world) : Prop :=
  effects (trace w) = effects (trace w').

(** Two computations that, from such states, end in the same way and in
    such states again. *)
Definition agree {A} (m m' : M A) : Prop :=
  forall w w',
    same_effects w w' ->
    fst (m w) = fst (m' w') /\ same_effects (snd (m w)) (snd (m' w')).

(** The state in which the next attempt starts after a failed one: the
    call, the console note, the sleep. *)
Definition after_retry (env : environment) (url : string) (body : payload) (timeout : Z)
    (note : string) (w : world) : world :=
  emit env (EvSleep 1) (emit env (EvPrint note) (emit env (EvPost url body timeout) w)).

(** The console notes of the submitter before a retry. *)
Definition timeout_note (max_retries attempt : Z) : string :=
  "Timeout na tentativa " ++ str_int (attempt + 1) ++ "/" ++ str_int max_retries
  ++ ". Tentando novamente...".

Definition error_note (max_retries attempt : Z) (msg : string) : string :=
  "Erro na tentativa " ++ str_int (attempt + 1) ++ "/" ++ str_int max_retries
  ++ ": " ++ msg ++ ". Tentando novamente...".

(** The calls made between state [w] and the outcome [out] of the
    submitter are all the same call, and each call that was answered is the
    last one, its answer being the result. *)
Definition calls_settled (env : environment) (url : string) (body : payload) (timeout : Z)
    (w : world) (out : result (option response) * world) : Prop :=
  exists n,
    posts (trace (snd out)) = (posts (trace w) ++ repeat (EvPost url body timeout) n)%list /\
    forall j resp,
      (j < n)%nat -> net env (length (posts (trace w)) + j) = Ret resp ->
      S j = n /\ fst out = Ret (Some resp).

(** The effects of [n] attempts that all fail and are retried: the calls,
    with one sleep of one second between two consecutive calls and none
    after the last. *)
Fixpoint backoff_pattern (call : event) (n : nat) : list event :=
  match n with
  | O => []
  | S O => [call]
  | S n' => call :: EvSleep 1 :: backoff_pattern call n'
  end.

(** [needle] occurs in [text]. *)
Fixpoint occurs_in (needle text : string) : bool :=
  String.prefix needle text ||
  match text with
  | EmptyString => false
  | String _ rest => occurs_in needle rest
  end.

(** How far the loop took a row. *)
Inductive stage : Type :=
| Skipped        (* the flag was set when the row's turn came *)
| BuildFailed    (* [prepare_payload] returned [None] *)
| Submitted.     (* the payload was built and handed to the submitter *)

(** What the processing of a row appended to the log files. *)
Definition new_appends (before after : world) : list (string * string) :=
  drop (length (appends (trace before))) (appends (trace after)).

(** For each row of a run of the loop, in row order: how far the row got
    and what was appended to the log files while it was being processed. *)
Fixpoint row_reports (env : environment) (files : log_files) (total_rows : Z)
    (index : nat) (rows : list row) (w : world)
  : list (stage * list (string * string)) :=
  match rows with
  | [] => []
  | r :: rest =>
      if kill_now w
      then map (fun _ => (Skipped, [])) (r :: rest)
      else
        let w' := snd (process_row env files total_rows (Z.of_nat index) r w) in
        (match build_payload r with Ret _ => Submitted | Raise _ => BuildFailed end,
         new_appends w w')
        :: row_reports env files total_rows (S index) rest w'
  end.

(** The line format with the English outcome words, for comparison with
    what [log_result] writes. *)
Definition english_line (timestamp : string) (success : bool) (data_json detail : string)
  : string :=
  "[" ++ timestamp ++ "] " ++ (if success then "Success" else "Failure")
  ++ " - Dados: " ++ data_json ++ " - "
  ++ (if success then "Status: " else "Erro: ") ++ detail.

(** ** Sample inputs *)

(** The row of the Acme scenario; [stage] is the cell of the [stage_id]
    column. *)
Definition acme_row_with (stage : cell) : row :=
  <["Name" := CStr "Acme"]>
  (<["Company Name" := CStr "Acme Inc"]>
  (<["x_studio_tese" := CStr "x"]>
  (<["user_id" := CInt 5]>
  (<["team_id" := CInt 2]>
  (<["tag_ids" := CStr "a,b"]>
  (<["stage_id" := stage]> ∅)))))).

(** The same row with an empty [stage_id] cell. *)
Definition acme_row : row := acme_row_with CNaN.

Definition acme_payload : payload :=
  {| name := "Acme"; contact_name := "Acme Inc"; x_studio_tese := "x";
     user_id := 5; team_id := 2; tag_ids := ["a"; "b"]; stage_id := 10 |}.

(** The Acme row with an empty text in the [tag_ids] column. *)
Definition empty_tags_row : row := <["tag_ids" := CStr ""]> acme_row.

(** The Acme row with a [user_id] that is not a number. *)
Definition bad_user_row : row := <["user_id" := CStr "abc"]> acme_row.

(** The Acme row without the [team_id] column. *)
Definition no_team_row : row := delete "team_id" acme_row.

Definition sample_time : datetime :=
  {| year := 2024; month := 3; day := 7; hour := 9; minute := 5; second := 1 |}.

Definition sample_files : log_files :=
  {| success_file := "successful_requests_20240307_090501.txt";
     failure_file := "failed_requests_20240307_090501.txt" |}.

(** An endpoint that answers every call with the given status. *)
Definition answering (status : Z) : environment :=
  {| net := fun _ => Ret {| status_code := status |};
     interrupted := fun _ => false;
     clock := fun _ => sample_time;
     excel := fun _ => Ret [acme_row] |}.

(** An endpoint on which every call times out; the text of the exception
    tells the calls apart. *)
Definition timing_out : environment :=
  {| net := fun n => Raise (Timeout ("read timed out on call " ++ str_int (Z.of_nat n)));
     interrupted := fun _ => false;
     clock := fun _ => sample_time;
     excel := fun _ => Ret [acme_row] |}.

(** An endpoint that fails twice and then answers 201, with a signal
    delivered during event number 4 of the run. *)
Definition flaky_interrupted : environment :=
  {| net := fun n => match n with
                     | O => Raise (Timeout "read timed out")
                     | S O => Raise (RequestException "connection reset")
                     | _ => Ret {| status_code := 201 |}
                     end;
     interrupted := fun n => Nat.eqb n 4;
     clock := fun _ => sample_time;
     excel := fun _ => Ret [acme_row; acme_row] |}.

(** ** Further observations *)

(** An outcome of [requests.post] that the submitter answers with a retry:
    a timeout or another [RequestException]. *)
Definition transport_failure (outcome : result response) : bool :=
  match outcome with
  | Raise (Timeout _) | Raise (RequestException _) => true
  | _ => false
  end.

(** What the submitter makes of an outcome that it does not retry. *)
Definition settled (outcome : result response) : result (option response) :=
  match outcome with
  | Ret r => Ret (Some r)
  | Raise e => Raise e
  end.

(** The columns that [prepare_payload] reads. *)
Definition required_columns : list string :=
  ["Name"; "Company Name"; "x_studio_tese"; "user_id"; "team_id"; "tag_ids"; "stage_id"].

(** How often a character occurs in a text. *)
Fixpoint count_char (c : ascii) (s : string) : nat :=
  match s with
  | EmptyString => O
  | String d rest => (if Ascii.eqb c d then 1 else 0) + count_char c rest
  end.

(** No signal is delivered during the events that lead from [w] to [w']. *)
Definition quiet_between (env : environment) (w w' : world) : Prop :=
  forall p, (length (trace w) <= p < length (trace w'))%nat -> interrupted env p = false.

(** A computation that only adds to the trace and that loses no signal: if
    the flag is unset when it ends, the flag was unset when it started and
    no signal was delivered meanwhile. *)
Definition heeds_signals (env : environment) {A} (m : M A) : Prop :=
  forall w,
    (length (trace w) <= length (trace (snd (m w))))%nat /\
    (kill_now (snd (m w)) = false -> kill_now w = false /\ quiet_between env w (snd (m w))).



(** The value of a run of decimal digits read after [acc]. *)
Fixpoint digits_acc (d : Decimal.uint) (acc : Z) : Z :=
  match d with
  | Decimal.Nil => acc
  | Decimal.D0 d' => digits_acc d' (10 * acc)
  | Decimal.D1 d' => digits_acc d' (10 * acc + 1)
  | Decimal.D2 d' => digits_acc d' (10 * acc + 2)
  | Decimal.D3 d' => digits_acc d' (10 * acc + 3)
  | Decimal.D4 d' => digits_acc d' (10 * acc + 4)
  | Decimal.D5 d' => digits_acc d' (10 * acc + 5)
  | Decimal.D6 d' => digits_acc d' (10 * acc + 6)
  | Decimal.D7 d' => digits_acc d' (10 * acc + 7)
  | Decimal.D8 d' => digits_acc d' (10 * acc + 8)
  | Decimal.D9 d' => digits_acc d' (10 * acc + 9)
  end.

(** An endpoint that refuses every connection. *)
Definition refusing : environment :=
  {| net := fun n => Raise (RequestException
                              ("connection refused on call " ++ str_int (Z.of_nat n)));
     interrupted := fun _ => false;
     clock := fun _ => sample_time;
     excel := fun _ => Ret [acme_row] |}.

(** An endpoint on which the first call fails inside the HTTP library with
    an exception that is no [RequestException]. *)
Definition crashing : environment :=
  {| net := fun _ => Raise (OtherException "unsupported operation");
     interrupted := fun _ => false;
     clock := fun _ => sample_time;
     excel := fun _ => Ret [acme_row] |}.

(** A spreadsheet that cannot be read. *)
Definition unreadable : environment :=
  {| net := net (answering 201);
     interrupted := fun _ => false;
     clock := fun _ => sample_time;
     excel := fun _ => Raise (OtherException "No such file or directory: crm.xlsx") |}.

(** The state in which [main] starts its work: [GracefulExit()] has just
    set the flag to false. *)
Definition reset (w0 : world) : world := {| kill_now := false; trace := trace w0 |}.

(** The names of the log files of the run that starts in [w0]. *)
Definition files_of_run (env : environment) (w0 : world) : log_files :=
  {| success_file := "successful_requests_" ++ strftime_compact (time_of env w0) ++ ".txt";
     failure_file := "failed_requests_" ++ strftime_compact (time_of env w0) ++ ".txt" |}.

(** The state in which [main] has named the log files on the console. *)
Definition files_named (env : environment) (w0 : world) : world :=
  emit env (EvPrint ("Arquivos de log criados: " ++ success_file (files_of_run env w0)
                     ++ " e " ++ failure_file (files_of_run env w0))) (reset w0).

(** The state in which [main] enters its loop over [rows]. *)
Definition loop_start (env : environment) (w0 : world) (rows : list row) : world :=
  emit env (EvPrint ("Total de linhas a processar: " ++ str_int (Z.of_nat (length rows))))
    (files_named env w0).

(** A signal delivered while [main] prints its first line. *)
Definition interrupted_at_start : environment :=
  {| net := net (answering 201);
     interrupted := fun n => Nat.eqb n 0;
     clock := fun _ => sample_time;
     excel := fun _ => Ret [acme_row; acme_row] |}.

(** ** Basic facts about events and traces *)

Local Open Scope list_scope.

Arguments emit : simpl never.
Arguments log_result : simpl never.
Arguments success_line : simpl never.
Arguments failure_line : simpl never.
Arguments json_dumps : simpl never.
Arguments strftime_iso : simpl never.
Arguments str_int : simpl never.
Arguments time_of : simpl never.

Lemma effects_app (t u : list event) : effects (t ++ u) = effects t ++ effects u.
Proof. apply List.filter_app. Qed.

Lemma posts_app (t u : list event) : posts (t ++ u) = posts t ++ posts u.
Proof. apply List.filter_app. Qed.

Lemma sleeps_app (t u : list event) : sleeps (t ++ u) = sleeps t ++ sleeps u.
Proof. apply List.filter_app. Qed.

Lemma appends_app (t u : list event) : appends (t ++ u) = appends t ++ appends u.
Proof.
  induction t as [|e t IH]; simpl; [reflexivity|].
  destruct e; simpl; rewrite IH; reflexivity.
Qed.

Lemma posts_effects (t : list event) : posts (effects t) = posts t.
Proof.
  induction t as [|e t IH]; simpl; [reflexivity|].
  destruct e; simpl; rewrite ?IH; reflexivity.
Qed.

Lemma appends_effects (t : list event) : appends (effects t) = appends t.
Proof.
  induction t as [|e t IH]; simpl; [reflexivity|].
  destruct e; simpl; rewrite ?IH; reflexivity.
Qed.

Lemma sleeps_effects (t : list event) : sleeps (effects t) = sleeps t.
Proof.
  induction t as [|e t IH]; simpl; [reflexivity|].
  destruct e; simpl; rewrite ?IH; reflexivity.
Qed.

Lemma effects_signal_note env n : effects (signal_note env n) = [].
Proof. unfold signal_note. destruct (interrupted env n); reflexivity. Qed.

Lemma emit_trace env e w :
  trace (emit env e w) = trace w ++ e :: signal_note env (length (trace w)).
Proof.
  unfold emit, signal_note, exit_gracefully.
  destruct (interrupted env (length (trace w))); simpl; [|reflexivity].
  rewrite <- app_assoc. reflexivity.
Qed.

Lemma emit_kill_now env e w :
  kill_now (emit env e w) = kill_now w || interrupted env (length (trace w)).
Proof.
  unfold emit, exit_gracefully.
  destruct (interrupted env (length (trace w))); simpl;
    [rewrite orb_true_r | rewrite orb_false_r]; reflexivity.
Qed.

Lemma effects_emit env e w :
  effects (trace (emit env e w)) = effects (trace w) ++ effects [e].
Proof.
  rewrite emit_trace, effects_app.
  change (e :: signal_note env (length (trace w)))
    with ([e] ++ signal_note env (length (trace w))).
  rewrite effects_app, effects_signal_note, app_nil_r. reflexivity.
Qed.

Lemma effects_emit_print env text w :
  effects (trace (emit env (EvPrint text) w)) = effects (trace w).
Proof. rewrite effects_emit. simpl. apply app_nil_r. Qed.

Lemma appends_emit env e w :
  appends (trace (emit env e w)) = appends (trace w) ++ appends [e].
Proof.
  rewrite <- (appends_effects (trace (emit env e w))), effects_emit, appends_app.
  rewrite !appends_effects. reflexivity.
Qed.

Lemma posts_emit env e w :
  posts (trace (emit env e w)) = posts (trace w) ++ posts [e].
Proof.
  rewrite <- (posts_effects (trace (emit env e w))), effects_emit, posts_app.
  rewrite !posts_effects. reflexivity.
Qed.

Lemma time_of_emit_print env text w :
  time_of env (emit env (EvPrint text) w) = time_of env w.
Proof. unfold time_of. rewrite effects_emit_print. reflexivity. Qed.

(** What [log_result] does, in one step. *)
Lemma log_result_eq env path data response error w :
  log_result env path data response error w =
  (Ret tt,
   emit env
     (EvAppend path
        (match response with
         | Some r =>
             if response_ok r then success_line (time_of env w) data (status_code r)
             else failure_line (time_of env w) data (str_opt error)
         | None => failure_line (time_of env w) data (str_opt error)
         end)) w).
Proof.
  unfold log_result, bind, now, append_file, time_of, success_line, failure_line.
  destruct response as [r|]; [destruct (response_ok r)|]; reflexivity.
Qed.

Lemma response_ok_200_201 (r : response) :
  (status_code r =? 200) || (status_code r =? 201) = true -> response_ok r = true.
Proof.
  unfold response_ok. intros H. apply orb_true_iff in H.
  destruct H as [H|H]; apply Z.eqb_eq in H; rewrite H; reflexivity.
Qed.

(** ** The payload builder *)

(** A payload that was built tells where each of its fields came from. *)
Lemma build_payload_inv (r : row) (p : payload) :
  build_payload r = Ret p ->
  exists c_name c_company c_tese c_user c_team c_tags c_stage,
    r !! "Name" = Some c_name /\ r !! "Company Name" = Some c_company /\
    r !! "x_studio_tese" = Some c_tese /\ r !! "user_id" = Some c_user /\
    r !! "team_id" = Some c_team /\ r !! "tag_ids" = Some c_tags /\
    r !! "stage_id" = Some c_stage /\
    name p = str_cell c_name /\ contact_name p = str_cell c_company /\
    x_studio_tese p = str_cell c_tese /\
    int_cell c_user = Ret (user_id p) /\ int_cell c_team = Ret (team_id p) /\
    tag_ids p = match c_tags with CStr s => split_comma s | _ => [] end /\
    (if notna c_stage then int_cell c_stage else Ret 10) = Ret (stage_id p).
Proof.
  unfold build_payload, getitem, rbind. intros H.
  destruct (r !! "Name") as [c1|]; [|discriminate].
  destruct (r !! "Company Name") as [c2|]; [|discriminate].
  destruct (r !! "x_studio_tese") as [c3|]; [|discriminate].
  destruct (r !! "user_id") as [c4|]; [|discriminate].
  destruct (int_cell c4) as [v4|] eqn:E4; [|discriminate].
  destruct (r !! "team_id") as [c5|]; [|discriminate].
  destruct (int_cell c5) as [v5|] eqn:E5; [|discriminate].
  destruct (r !! "tag_ids") as [c6|]; [|discriminate].
  destruct (r !! "stage_id") as [c7|]; [|discriminate].
  destruct (if notna c7 then int_cell c7 else Ret 10) as [v7|] eqn:E7; [|discriminate].
  injection H as <-. exists c1, c2, c3, c4, c5, c6, c7. simpl.
  repeat split; reflexivity || assumption.
Qed.

Lemma prepare_payload_some env r p w w' :
  prepare_payload env r w = (Ret (Some p), w') -> build_payload r = Ret p /\ w' = w.
Proof.
  unfold prepare_payload. destruct (build_payload r) as [q|e].
  - unfold ret. intros H. injection H as -> ->. split; reflexivity.
  - unfold bind, print, ret. discriminate.
Qed.

Lemma prepare_payload_built env r p w :
  build_payload r = Ret p -> prepare_payload env r w = (Ret (Some p), w).
Proof. unfold prepare_payload. intros ->. reflexivity. Qed.

Lemma prepare_payload_failed env r e w :
  build_payload r = Raise e ->
  prepare_payload env r w =
  (Ret None, emit env (EvPrint ("Erro ao preparar payload: " ++ str_exn e)%string) w).
Proof. unfold prepare_payload. intros ->. reflexivity. Qed.

(** The three causes of a failed construction, on the sample rows. *)
Example build_fails_on_missing_column :
  build_payload no_team_row = Raise (KeyError (squote ++ "team_id" ++ squote)%string).
Proof. vm_compute. reflexivity. Qed.

Example build_fails_on_text_that_is_no_number :
  build_payload bad_user_row =
  Raise (ValueError ("invalid literal for int() with base 10: "
                     ++ squote ++ "abc" ++ squote)%string).
Proof. vm_compute. reflexivity. Qed.

Example build_fails_on_empty_required_cell :
  build_payload (<["user_id" := CNaN]> acme_row) =
  Raise (ValueError "cannot convert float NaN to integer").
Proof. vm_compute. reflexivity. Qed.

(** A row without the [stage_id] column is not a row with an empty
    [stage_id] cell: the lookup raises and no payload is built. *)
Example build_fails_without_stage_column :
  build_payload (delete "stage_id" acme_row) =
  Raise (KeyError (squote ++ "stage_id" ++ squote)%string).
Proof. vm_compute. reflexivity. Qed.

(** C8. The Acme row, its [stage_id] cell empty (the missing-value
    marker, or [None]), is turned into exactly the payload
    name Acme, contact_name Acme Inc, x_studio_tese x, user_id 5, team_id 2,
    tag_ids [a; b], stage_id 10: the stage defaults to 10. *)
Theorem acme_row_payload (env : environment) (w : world) :
  build_payload acme_row = Ret acme_payload /\
  build_payload (acme_row_with CNone) = Ret acme_payload /\
  prepare_payload env acme_row w = (Ret (Some acme_payload), w) /\
  prepare_payload env (acme_row_with CNone) w = (Ret (Some acme_payload), w).
Proof.
  assert (H1 : build_payload acme_row = Ret acme_payload) by (vm_compute; reflexivity).
  assert (H2 : build_payload (acme_row_with CNone) = Ret acme_payload)
    by (vm_compute; reflexivity).
  repeat split; try assumption; apply prepare_payload_built; assumption.
Qed.

(** C7, as the code has it. Whenever a payload is built, its [tag_ids] is
    the comma-split of the [tag_ids] cell if that cell is a text, empty or
    not, and the empty list if the cell is not a text; the split of the
    empty text is the list holding one empty text. *)
Theorem tag_ids_of_built_payload (env : environment) (r : row) (p : payload) (w w' : world) :
  prepare_payload env r w = (Ret (Some p), w') ->
  (forall s, r !! "tag_ids" = Some (CStr s) -> tag_ids p = split_comma s) /\
  (r !! "tag_ids" = Some (CStr "") -> tag_ids p = [""%string]) /\
  (forall c, r !! "tag_ids" = Some c -> (forall s, c <> CStr s) -> tag_ids p = []).
Proof.
  intros H. apply prepare_payload_some in H as [H _].
  apply build_payload_inv in H
    as (c1 & c2 & c3 & c4 & c5 & c6 & c7 & _ & _ & _ & _ & _ & Htag & _ & _ & _ & _ & _ & _ & Hp & _).
  repeat split.
  - intros s Hs. rewrite Htag in Hs. injection Hs as ->. exact Hp.
  - intros Hs. rewrite Htag in Hs. injection Hs as ->. exact Hp.
  - intros c Hc Hn. rewrite Htag in Hc. injection Hc as ->. rewrite Hp.
    destruct c as [s| | |]; [destruct (Hn s eq_refl) | reflexivity..].
Qed.

Lemma tag_ids_of_built_payload_witness :
  tag_ids acme_payload = split_comma "a,b".
Proof.
  apply (tag_ids_of_built_payload (answering 201) acme_row acme_payload start start).
  - vm_compute. reflexivity.
  - vm_compute. reflexivity.
Defined.

(** C7 as stated fails on the empty text: the cell is a text, so it is
    split, and the payload carries one empty tag instead of no tag. *)
Lemma empty_tags_counterexample :
  empty_tags_row !! "tag_ids" = Some (CStr "") /\
  exists p, prepare_payload (answering 201) empty_tags_row start = (Ret (Some p), start) /\
            tag_ids p = [""%string] /\ tag_ids p <> [].
Proof.
  split; [vm_compute; reflexivity|].
  exists {| name := "Acme"; contact_name := "Acme Inc"; x_studio_tese := "x";
            user_id := 5; team_id := 2; tag_ids := [""%string]; stage_id := 10 |}.
  split; [vm_compute; reflexivity|]. split; [reflexivity | discriminate].
Qed.

(** ** The outcome logger *)

(** C9, as the code has it. Every call of [log_result] appends exactly one
    line to the file it is given, and the line reads
    [[timestamp] Sucesso - Dados: payload-as-JSON - Status: code] when the
    response argument is a response that counts as true, and
    [[timestamp] Falha - Dados: payload-as-JSON - Erro: description]
    otherwise: the outcome words are the Portuguese Sucesso and Falha. *)
Theorem log_result_line (env : environment) (path : string) (data : payload)
    (response : option response) (error : option string) (w : world) :
  let timestamp := strftime_iso (time_of env w) in
  let text :=
    match response with
    | Some r =>
        if response_ok r
        then ("[" ++ timestamp ++ "] " ++ "Sucesso" ++ " - Dados: " ++ json_dumps data
              ++ " - " ++ "Status: " ++ str_int (status_code r) ++ newline)%string
        else ("[" ++ timestamp ++ "] " ++ "Falha" ++ " - Dados: " ++ json_dumps data
              ++ " - " ++ "Erro: " ++ str_opt error ++ newline)%string
    | None => ("[" ++ timestamp ++ "] " ++ "Falha" ++ " - Dados: " ++ json_dumps data
               ++ " - " ++ "Erro: " ++ str_opt error ++ newline)%string
    end in
  fst (log_result env path data response error w) = Ret tt /\
  appends (trace (snd (log_result env path data response error w)))
  = appends (trace w) ++ [(path, text)] /\
  effects (trace (snd (log_result env path data response error w)))
  = effects (trace w) ++ [EvAppend path text].
Proof.
  intros timestamp text. rewrite log_result_eq. simpl fst. simpl snd.
  rewrite appends_emit, effects_emit. subst text timestamp.
  unfold success_line, failure_line.
  destruct response as [r|]; [destruct (response_ok r)|];
    repeat split; reflexivity.
Qed.

(** C9 as stated fails: the line written for a 201 answer to the Acme
    payload is not the line with the English word, and the word Success
    does not occur in it. *)
Lemma english_tag_counterexample :
  exists text,
    appends (trace (snd (log_result (answering 201) "log.txt" acme_payload
                           (Some {| status_code := 201 |}) None start)))
    = [("log.txt"%string, text)] /\
    text <> (english_line (strftime_iso sample_time) true (json_dumps acme_payload) "201"
             ++ newline)%string /\
    occurs_in "Success" text = false /\
    occurs_in "Sucesso" text = true.
Proof.
  eexists. split; [vm_compute; reflexivity|].
  split; [vm_compute; discriminate|].
  split; vm_compute; reflexivity.
Qed.

(** ** The retrying submitter *)

(** C10. With [max_retries = 0] the loop body never runs: nothing is
    posted, nothing happens at all, no exception is raised and the function
    returns [None]. The caller reads [status_code] of that result as if it
    were a response, which raises [AttributeError]; in the loop of [main]
    this ends in the catch-all clause and one failure line. *)
Theorem make_request_zero_retries (env : environment) (files : log_files) (index : Z)
    (url : string) (data : payload) (timeout : Z) (w : world) :
  make_request env url data timeout 0 w = (Ret None, w) /\
  check_response env files index data None w
  = (Raise (AttributeError (squote ++ "NoneType" ++ squote ++ " object has no attribute "
                            ++ squote ++ "status_code" ++ squote)%string), w) /\
  appends (trace (snd (submit env files index data
                         (make_request env url data timeout 0) w)))
  = appends (trace w)
    ++ [(failure_file files,
         failure_line (time_of env w) data
           ("Erro inesperado: " ++ squote ++ "NoneType" ++ squote
            ++ " object has no attribute " ++ squote ++ "status_code" ++ squote)%string)].
Proof.
  split; [reflexivity|]. split; [reflexivity|].
  unfold submit, try_except, bind. simpl.
  rewrite !appends_emit. simpl. rewrite app_nil_r.
  unfold failure_line, time_of. reflexivity.
Qed.

(** ** Rows whose payload cannot be built *)

(** C1, as the code has it. When the construction of the payload fails,
    the row makes no HTTP call and appends nothing to either log file: the
    description of the error only goes to the console. *)
Theorem build_failure_is_not_logged (env : environment) (files : log_files)
    (total_rows index : Z) (r : row) (e : exn) (w : world) :
  build_payload r = Raise e ->
  exists t,
    fst (process_row env files total_rows index r w) = Ret tt /\
    trace (snd (process_row env files total_rows index r w)) = trace w ++ t /\
    effects t = [] /\ posts t = [] /\ appends t = [] /\
    In (EvPrint ("Erro ao preparar payload: " ++ str_exn e)%string) t.
Proof.
  intros He. unfold process_row, bind, print.
  rewrite (prepare_payload_failed _ _ _ _ He). unfold ret. cbn [fst snd].
  set (line := EvPrint (newline ++ "Processando linha " ++ str_int (index + 1) ++ "/"
                        ++ str_int total_rows)%string).
  set (note := EvPrint ("Erro ao preparar payload: " ++ str_exn e)%string).
  exists ((line :: signal_note env (length (trace w)))
          ++ note :: signal_note env (length (trace (emit env line w)))).
  split; [reflexivity|]. split; [|split; [|split; [|split]]].
  - rewrite app_assoc, <- emit_trace, <- emit_trace. reflexivity.
  - rewrite effects_app. simpl. rewrite !effects_signal_note. reflexivity.
  - rewrite <- posts_effects, effects_app. simpl. rewrite !effects_signal_note. reflexivity.
  - rewrite <- appends_effects, effects_app. simpl. rewrite !effects_signal_note. reflexivity.
  - apply in_or_app. right. left. reflexivity.
Qed.

Lemma build_failure_is_not_logged_witness :
  exists t,
    fst (process_row (answering 201) sample_files 1 0 bad_user_row start) = Ret tt /\
    trace (snd (process_row (answering 201) sample_files 1 0 bad_user_row start))
    = trace start ++ t /\
    effects t = [] /\ posts t = [] /\ appends t = [] /\
    In (EvPrint ("Erro ao preparar payload: "
                 ++ str_exn (ValueError ("invalid literal for int() with base 10: "
                                         ++ squote ++ "abc" ++ squote)))%string) t.
Proof.
  apply (build_failure_is_not_logged (answering 201) sample_files 1 0 bad_user_row).
  vm_compute. reflexivity.
Defined.

(** C1 as stated fails: the row whose [user_id] is no number does not build,
    and after the whole run over that row the failure log has no line. *)
Lemma build_failure_counterexample :
  build_payload bad_user_row
  = Raise (ValueError ("invalid literal for int() with base 10: "
                       ++ squote ++ "abc" ++ squote)%string) /\
  let env := {| net := net (answering 201); interrupted := interrupted (answering 201);
                clock := clock (answering 201); excel := fun _ => Ret [bad_user_row] |} in
  file_lines "failed_requests_20240307_090501.txt" (trace (snd (main env start))) = [] /\
  appends (trace (snd (main env start))) = [] /\
  posts (trace (snd (main env start))) = [].
Proof. vm_compute. repeat split; reflexivity. Qed.

(** ** The attempts of the submitter, one at a time *)

Section Attempts.

Variable env : environment.
Variables (url : string) (body : payload) (timeout max_retries : Z).

Local Abbreviation call := (EvPost url body timeout).
Local Abbreviation after_retry := (after_retry env url body timeout).
Local Abbreviation timeout_note := (timeout_note max_retries).
Local Abbreviation error_note := (error_note max_retries).
Local Abbreviation calls_settled := (calls_settled env url body timeout).

Lemma attempt_answered attempt rest w resp :
  net env (length (posts (trace w))) = Ret resp ->
  attempt_loop env url body timeout max_retries (attempt :: rest) w
  = (Ret (Some resp), emit env call w).
Proof.
  intros H. cbn [attempt_loop]. unfold try_except, bind, post. rewrite H. reflexivity.
Qed.

Lemma attempt_timed_out attempt rest w msg :
  net env (length (posts (trace w))) = Raise (Timeout msg) ->
  attempt_loop env url body timeout max_retries (attempt :: rest) w
  = if attempt =? max_retries - 1
    then (Raise (Timeout msg), emit env call w)
    else attempt_loop env url body timeout max_retries rest
           (after_retry (timeout_note attempt) w).
Proof.
  intros H. cbn [attempt_loop]. unfold try_except, bind at 1, post. rewrite H.
  destruct (attempt =? max_retries - 1); reflexivity.
Qed.

Lemma attempt_failed attempt rest w msg :
  net env (length (posts (trace w))) = Raise (RequestException msg) ->
  attempt_loop env url body timeout max_retries (attempt :: rest) w
  = if attempt =? max_retries - 1
    then (Raise (RequestException msg), emit env call w)
    else attempt_loop env url body timeout max_retries rest
           (after_retry (error_note attempt msg) w).
Proof.
  intros H. cbn [attempt_loop]. unfold try_except, bind at 1, post. rewrite H.
  destruct (attempt =? max_retries - 1); reflexivity.
Qed.

Lemma attempt_crashed attempt rest w e :
  net env (length (posts (trace w))) = Raise e ->
  (forall msg, e <> Timeout msg) -> (forall msg, e <> RequestException msg) ->
  attempt_loop env url body timeout max_retries (attempt :: rest) w
  = (Raise e, emit env call w).
Proof.
  intros H Ht Hr. cbn [attempt_loop]. unfold try_except, bind, post. rewrite H.
  destruct e as [m|m|m|m|m|m|m]; try reflexivity;
    [destruct (Ht m eq_refl) | destruct (Hr m eq_refl)].
Qed.

Lemma effects_after_retry note w :
  effects (trace (after_retry note w)) = effects (trace w) ++ [call; EvSleep 1].
Proof.
  unfold after_retry. rewrite effects_emit, effects_emit_print, effects_emit.
  rewrite <- app_assoc. reflexivity.
Qed.

Lemma posts_after_retry note w :
  posts (trace (after_retry note w)) = posts (trace w) ++ [call].
Proof.
  rewrite <- posts_effects, effects_after_retry, posts_app, posts_effects. reflexivity.
Qed.

Lemma appends_after_retry note w :
  appends (trace (after_retry note w)) = appends (trace w).
Proof.
  rewrite <- appends_effects, effects_after_retry, appends_app, appends_effects.
  simpl. apply app_nil_r.
Qed.

Lemma one_call_settled w r :
  (forall resp, net env (length (posts (trace w))) = Ret resp -> r = Ret (Some resp)) ->
  calls_settled w (r, emit env call w).
Proof.
  intros Hr. exists 1%nat. cbn [fst snd repeat]. split; [apply posts_emit|].
  intros j resp Hj Hnet. assert (j = O) by lia. subst j.
  rewrite Nat.add_0_r in Hnet. split; [reflexivity | apply Hr; exact Hnet].
Qed.

Lemma retry_settled w note out :
  (forall resp, net env (length (posts (trace w))) <> Ret resp) ->
  calls_settled (after_retry note w) out -> calls_settled w out.
Proof.
  intros Hno (n & Hp & Hlast). exists (S n). split.
  - rewrite Hp, posts_after_retry, <- app_assoc. reflexivity.
  - intros j resp Hj Hnet. destruct j as [|j].
    + rewrite Nat.add_0_r in Hnet. destruct (Hno resp Hnet).
    + destruct (Hlast j resp) as [Hl Hf]; [lia| |].
      * rewrite posts_after_retry, length_app. cbn [length].
        replace (length (posts (trace w)) + 1 + j)%nat
          with (length (posts (trace w)) + S j)%nat by lia. exact Hnet.
      * split; [lia | exact Hf].
Qed.

Lemma attempt_loop_calls attempts :
  forall w,
    calls_settled w (attempt_loop env url body timeout max_retries attempts w).
Proof.
  induction attempts as [|attempt rest IH]; intros w.
  - exists O. simpl. rewrite app_nil_r. split; [reflexivity | intros; lia].
  - destruct (net env (length (posts (trace w)))) as [resp|e] eqn:Hnet.
    + rewrite (attempt_answered _ _ _ _ Hnet). apply one_call_settled.
      rewrite Hnet. intros resp' H. injection H as <-. reflexivity.
    + assert (Hno : forall resp, net env (length (posts (trace w))) <> Ret resp)
        by (rewrite Hnet; discriminate).
      assert (Hone : forall r, calls_settled w (r, emit env call w)).
      { intros r. apply one_call_settled. intros resp H. destruct (Hno resp H). }
      destruct e as [m|m|m|m|m|m|m];
        try (rewrite (attempt_crashed _ _ _ _ Hnet); [apply Hone | discriminate..]).
      * rewrite (attempt_timed_out _ _ _ _ Hnet).
        destruct (attempt =? max_retries - 1); [apply Hone|].
        apply (retry_settled _ (timeout_note attempt)); [exact Hno | apply IH].
      * rewrite (attempt_failed _ _ _ _ Hnet).
        destruct (attempt =? max_retries - 1); [apply Hone|].
        apply (retry_settled _ (error_note attempt m)); [exact Hno | apply IH].
Qed.

(** The submitter appends nothing to any file. *)
Lemma attempt_loop_appends attempts :
  forall w,
    appends (trace (snd (attempt_loop env url body timeout max_retries attempts w)))
    = appends (trace w).
Proof.
  induction attempts as [|attempt rest IH]; intros w; [reflexivity|].
  assert (Hcall : appends (trace (emit env call w)) = appends (trace w)).
  { rewrite appends_emit. simpl. apply app_nil_r. }
  destruct (net env (length (posts (trace w)))) as [resp|e] eqn:Hnet.
  - rewrite (attempt_answered _ _ _ _ Hnet). exact Hcall.
  - destruct e as [m|m|m|m|m|m|m];
      try (rewrite (attempt_crashed _ _ _ _ Hnet); [exact Hcall | discriminate..]).
    + rewrite (attempt_timed_out _ _ _ _ Hnet).
      destruct (attempt =? max_retries - 1); [exact Hcall|].
      rewrite IH. apply appends_after_retry.
    + rewrite (attempt_failed _ _ _ _ Hnet).
      destruct (attempt =? max_retries - 1); [exact Hcall|].
      rewrite IH. apply appends_after_retry.
Qed.

End Attempts.

(** ** The submitter as a whole *)

Lemma range_pos (n : Z) :
  0 < n -> range n = 0 :: map Z.of_nat (seq 1 (Z.to_nat n - 1)).
Proof.
  intros H. unfold range. destruct (Z.to_nat n) as [|k] eqn:E; [lia|].
  simpl. rewrite Nat.sub_0_r. reflexivity.
Qed.

Lemma posts_backoff_pattern url body timeout n :
  posts (backoff_pattern (EvPost url body timeout) n)
  = repeat (EvPost url body timeout) n.
Proof.
  induction n as [|[|n] IH]; [reflexivity..|].
  change (backoff_pattern (EvPost url body timeout) (S (S n)))
    with (EvPost url body timeout :: EvSleep 1
          :: backoff_pattern (EvPost url body timeout) (S n)).
  cbn [posts List.filter]. fold (posts (backoff_pattern (EvPost url body timeout) (S n))).
  rewrite IH. reflexivity.
Qed.

Lemma sleeps_backoff_pattern url body timeout n :
  sleeps (backoff_pattern (EvPost url body timeout) n) = repeat (EvSleep 1) (n - 1).
Proof.
  induction n as [|[|n] IH]; [reflexivity..|].
  change (backoff_pattern (EvPost url body timeout) (S (S n)))
    with (EvPost url body timeout :: EvSleep 1
          :: backoff_pattern (EvPost url body timeout) (S n)).
  cbn [sleeps List.filter]. fold (sleeps (backoff_pattern (EvPost url body timeout) (S n))).
  rewrite IH. simpl. rewrite Nat.sub_0_r. reflexivity.
Qed.

(** When every attempt times out, the loop over the last [m] of the
    [max_retries] attempts calls [m] times, sleeps between the calls and
    raises the exception of its last call. *)
Lemma attempt_loop_all_timeouts env url body timeout max_retries :
  forall m k w,
    (0 < m)%nat -> Z.of_nat (k + m) = max_retries ->
    (forall j, (j < m)%nat ->
               exists msg, net env (length (posts (trace w)) + j) = Raise (Timeout msg)) ->
    exists msg,
      net env (length (posts (trace w)) + (m - 1)) = Raise (Timeout msg) /\
      fst (attempt_loop env url body timeout max_retries (map Z.of_nat (seq k m)) w)
      = Raise (Timeout msg) /\
      effects (trace (snd (attempt_loop env url body timeout max_retries
                             (map Z.of_nat (seq k m)) w)))
      = effects (trace w) ++ backoff_pattern (EvPost url body timeout) m.
Proof.
  induction m as [|m IH]; intros k w Hm Hk Hall; [lia|].
  destruct (Hall O ltac:(lia)) as [msg0 H0]. rewrite Nat.add_0_r in H0.
  cbn [seq map]. rewrite (attempt_timed_out _ _ _ _ _ _ _ _ _ H0).
  destruct m as [|m].
  - replace (Z.of_nat k =? max_retries - 1) with true by (symmetry; apply Z.eqb_eq; lia).
    exists msg0. cbn [fst snd]. split; [|split; [reflexivity|]].
    + rewrite Nat.add_0_r. exact H0.
    + rewrite effects_emit. reflexivity.
  - replace (Z.of_nat k =? max_retries - 1) with false by (symmetry; apply Z.eqb_neq; lia).
    set (w1 := after_retry env url body timeout
                 (timeout_note max_retries (Z.of_nat k)) w).
    assert (Hp : length (posts (trace w1)) = S (length (posts (trace w)))).
    { subst w1. rewrite posts_after_retry, length_app. simpl. lia. }
    destruct (IH (S k) w1) as (msg & Hnet & Hres & Heff); [lia | lia | |].
    + intros j Hj. destruct (Hall (S j) ltac:(lia)) as [msg Hmsg].
      exists msg. rewrite Hp. replace (S (length (posts (trace w))) + j)%nat
        with (length (posts (trace w)) + S j)%nat by lia. exact Hmsg.
    + exists msg. split; [|split; [exact Hres|]].
      * rewrite Hp in Hnet.
        replace (length (posts (trace w)) + (S (S m) - 1))%nat
          with (S (length (posts (trace w))) + (S m - 1))%nat by lia. exact Hnet.
      * rewrite Heff. subst w1. rewrite effects_after_retry, <- app_assoc. reflexivity.
Qed.

(** C3. A response received on some attempt ends the call of the
    submitter: the call that is answered is the last call made and its
    answer, whatever the status code, is the result; in particular a first
    attempt that is answered is the only call, with no sleep. *)
Theorem response_is_returned_at_once (env : environment) (url : string) (body : payload)
    (timeout max_retries : Z) (w : world) :
  let out := make_request env url body timeout max_retries w in
  let first := length (posts (trace w)) in
  let calls := (length (posts (trace (snd out))) - first)%nat in
  (forall j resp,
      (j < calls)%nat -> net env (first + j) = Ret resp ->
      S j = calls /\ fst out = Ret (Some resp)) /\
  (forall resp,
      0 < max_retries -> net env first = Ret resp ->
      fst out = Ret (Some resp) /\ calls = 1%nat /\
      effects (trace (snd out)) = effects (trace w) ++ [EvPost url body timeout]).
Proof.
  intros out first calls. split.
  - destruct (attempt_loop_calls env url body timeout max_retries (range max_retries) w)
      as (n & Hp & Hlast).
    fold (make_request env url body timeout max_retries w) in Hp, Hlast. fold out in Hp, Hlast.
    assert (calls = n) as ->.
    { subst calls first. rewrite Hp, length_app, repeat_length. lia. }
    exact Hlast.
  - intros resp Hpos Hnet. subst calls out. unfold make_request.
    rewrite (range_pos _ Hpos), (attempt_answered _ _ _ _ _ _ _ _ _ Hnet).
    cbn [fst snd]. split; [reflexivity|]. split.
    + rewrite posts_emit, length_app. subst first. simpl. lia.
    + rewrite effects_emit. reflexivity.
Qed.

Lemma response_is_returned_at_once_witness :
  fst (make_request (answering 500) API_URL acme_payload 45 3 start)
  = Ret (Some {| status_code := 500 |}) /\
  (length (posts (trace (snd (make_request (answering 500) API_URL acme_payload 45 3
                                start)))) - 0)%nat = 1%nat /\
  effects (trace (snd (make_request (answering 500) API_URL acme_payload 45 3 start)))
  = [] ++ [EvPost API_URL acme_payload 45].
Proof.
  apply (proj2 (response_is_returned_at_once (answering 500) API_URL acme_payload 45 3
                  start) {| status_code := 500 |}).
  - lia.
  - reflexivity.
Defined.

(** ** One row through the loop body *)

Lemma check_response_some env files index data resp w :
  fst (check_response env files index data (Some resp) w) = Ret tt /\
  effects (trace (snd (check_response env files index data (Some resp) w)))
  = effects (trace w)
    ++ [EvAppend (fst (outcome_entry env files data (Ret (Some resp)) w))
                 (snd (outcome_entry env files data (Ret (Some resp)) w))].
Proof.
  unfold check_response, get_status_code, bind, ret, print, outcome_entry.
  cbv beta iota.
  destruct ((status_code resp =? 200) || (status_code resp =? 201)) eqn:Hok.
  - rewrite log_result_eq. cbn [fst snd].
    rewrite (response_ok_200_201 _ Hok), effects_emit_print, effects_emit.
    split; reflexivity.
  - rewrite log_result_eq. cbn [fst snd].
    rewrite effects_emit_print, effects_emit. split; reflexivity.
Qed.

Lemma on_exception_effects env files index data e w :
  fst (on_exception env files index data e w) = Ret tt /\
  effects (trace (snd (on_exception env files index data e w)))
  = effects (trace w)
    ++ [EvAppend (failure_file files)
                 (failure_line (time_of env w) data (exception_message e))].
Proof.
  unfold on_exception, bind, print. rewrite log_result_eq. cbn [fst snd].
  rewrite effects_emit_print, effects_emit. split; reflexivity.
Qed.

Lemma submit_eq env files index data (request : M (option response)) w :
  submit env files index data request w
  = match request w with
    | (Ret response, w2) =>
        match check_response env files index data response w2 with
        | (Ret a, w3) => (Ret a, w3)
        | (Raise e, w3) => on_exception env files index data e w3
        end
    | (Raise e, w2) => on_exception env files index data e w2
    end.
Proof.
  unfold submit, try_except, bind. destruct (request w) as [[response|e] w2]; reflexivity.
Qed.

(** Whatever the submitter returns or raises, the [try] statement ends
    normally after appending exactly one entry to one of the log files. *)
Lemma submit_effects env files index data (request : M (option response)) w :
  fst (submit env files index data request w) = Ret tt /\
  effects (trace (snd (submit env files index data request w)))
  = effects (trace (snd (request w)))
    ++ [EvAppend (fst (outcome_entry env files data (fst (request w)) (snd (request w))))
                 (snd (outcome_entry env files data (fst (request w)) (snd (request w))))].
Proof.
  rewrite submit_eq.
  destruct (request w) as [[[resp|]|e] w2]; cbn [fst snd].
  - destruct (check_response_some env files index data resp w2) as [Hf He].
    destruct (check_response env files index data (Some resp) w2) as [[[]|e'] w3];
      cbn [fst snd] in *; [|discriminate]. split; [reflexivity | exact He].
  - change (check_response env files index data None w2)
      with (@Raise unit (AttributeError
              (squote ++ "NoneType" ++ squote ++ " object has no attribute "
               ++ squote ++ "status_code" ++ squote)%string), w2).
    cbv iota beta. apply on_exception_effects.
  - apply on_exception_effects.
Qed.

Lemma submit_appends env files index data (request : M (option response)) w :
  appends (trace (snd (submit env files index data request w)))
  = appends (trace (snd (request w)))
    ++ [outcome_entry env files data (fst (request w)) (snd (request w))].
Proof.
  rewrite <- appends_effects, (proj2 (submit_effects env files index data request w)).
  rewrite appends_app, appends_effects. simpl.
  destruct (outcome_entry env files data (fst (request w)) (snd (request w))).
  reflexivity.
Qed.

Lemma process_row_built env files total_rows index r data w :
  build_payload r = Ret data ->
  process_row env files total_rows index r w
  = submit env files index data
      (make_request env API_URL data default_timeout default_max_retries)
      (announced env total_rows index w).
Proof.
  intros H. unfold process_row, bind at 1, print, bind at 1.
  rewrite (prepare_payload_built _ _ _ _ H). reflexivity.
Qed.

Lemma process_row_not_built env files total_rows index r e w :
  build_payload r = Raise e ->
  process_row env files total_rows index r w
  = (Ret tt, emit env (EvPrint ("Erro ao preparar payload: " ++ str_exn e)%string)
               (announced env total_rows index w)).
Proof.
  intros H. unfold process_row, bind at 1, print, bind at 1.
  rewrite (prepare_payload_failed _ _ _ _ H). reflexivity.
Qed.

Lemma make_request_appends env url body timeout max_retries w :
  appends (trace (snd (make_request env url body timeout max_retries w)))
  = appends (trace w).
Proof. apply attempt_loop_appends. Qed.

Lemma appends_announced env total_rows index w :
  appends (trace (announced env total_rows index w)) = appends (trace w).
Proof. unfold announced. rewrite appends_emit. simpl. apply app_nil_r. Qed.

(** The lines of one file after one more entry. *)
Lemma file_lines_entry path t t' entry :
  appends t' = appends t ++ [entry] ->
  file_lines path t'
  = file_lines path t ++ (if String.eqb (fst entry) path then [snd entry] else []).
Proof.
  intros H. unfold file_lines. rewrite H, List.filter_app, map_app. simpl.
  destruct (String.eqb (fst entry) path); reflexivity.
Qed.

(** The names that [create_log_files] makes up are different. *)
Lemma create_log_files_distinct env w files w' :
  create_log_files env w = (Ret files, w') -> success_file files <> failure_file files.
Proof.
  unfold create_log_files, bind, now, ret. intros H. injection H as <- _. discriminate.
Qed.

(** C6. A row whose payload was built and whose submission was answered
    with a response leaves exactly one entry: for status 200 or 201 a
    success line with that status in the success log and nothing in the
    failure log; for any other status a failure line with the description
    [Status code: <code>] in the failure log and nothing in the success
    log. *)
Theorem response_is_classified (env : environment) (files : log_files)
    (total_rows index : Z) (r : row) (data : payload) (resp : response) (w w2 : world) :
  success_file files <> failure_file files ->
  build_payload r = Ret data ->
  make_request env API_URL data default_timeout default_max_retries
    (announced env total_rows index w) = (Ret (Some resp), w2) ->
  let out := process_row env files total_rows index r w in
  let code := status_code resp in
  fst out = Ret tt /\
  (code = 200 \/ code = 201 ->
     appends (trace (snd out))
     = appends (trace w) ++ [(success_file files, success_line (time_of env w2) data code)] /\
     file_lines (success_file files) (trace (snd out))
     = file_lines (success_file files) (trace w) ++ [success_line (time_of env w2) data code] /\
     file_lines (failure_file files) (trace (snd out))
     = file_lines (failure_file files) (trace w)) /\
  (code <> 200 -> code <> 201 ->
     appends (trace (snd out))
     = appends (trace w)
       ++ [(failure_file files,
            failure_line (time_of env w2) data ("Status code: " ++ str_int code)%string)] /\
     file_lines (failure_file files) (trace (snd out))
     = file_lines (failure_file files) (trace w)
       ++ [failure_line (time_of env w2) data ("Status code: " ++ str_int code)%string] /\
     file_lines (success_file files) (trace (snd out))
     = file_lines (success_file files) (trace w)).
Proof.
  intros Hfiles Hbuild Hreq out code.
  assert (Happ : appends (trace (snd out))
                 = appends (trace w) ++ [outcome_entry env files data (Ret (Some resp)) w2]).
  { subst out. rewrite (process_row_built _ _ _ _ _ _ _ Hbuild), submit_appends, Hreq.
    cbn [fst snd]. f_equal.
    rewrite <- (appends_announced env total_rows index w).
    rewrite <- (make_request_appends env API_URL data default_timeout default_max_retries
                  (announced env total_rows index w)), Hreq. reflexivity. }
  assert (Hsf : String.eqb (success_file files) (failure_file files) = false)
    by (apply String.eqb_neq; exact Hfiles).
  assert (Hfs : String.eqb (failure_file files) (success_file files) = false)
    by (apply String.eqb_neq; intros H; apply Hfiles; symmetry; exact H).
  split; [|split].
  - subst out. rewrite (process_row_built _ _ _ _ _ _ _ Hbuild). apply submit_effects.
  - intros Hcode.
    assert (Hok : (code =? 200) || (code =? 201) = true).
    { apply orb_true_iff. destruct Hcode as [H|H]; [left|right]; apply Z.eqb_eq; exact H. }
    unfold outcome_entry in Happ. fold code in Happ. rewrite Hok in Happ.
    split; [exact Happ|]. split.
    + rewrite (file_lines_entry _ _ _ _ Happ). cbn [fst snd].
      rewrite String.eqb_refl. reflexivity.
    + rewrite (file_lines_entry _ _ _ _ Happ). cbn [fst snd].
      rewrite Hsf. apply app_nil_r.
  - intros H200 H201.
    assert (Hok : (code =? 200) || (code =? 201) = false).
    { apply orb_false_iff. split; apply Z.eqb_neq; assumption. }
    unfold outcome_entry in Happ. fold code in Happ. rewrite Hok in Happ.
    split; [exact Happ|]. split.
    + rewrite (file_lines_entry _ _ _ _ Happ). cbn [fst snd].
      rewrite String.eqb_refl. reflexivity.
    + rewrite (file_lines_entry _ _ _ _ Happ). cbn [fst snd].
      rewrite Hfs. apply app_nil_r.
Qed.

Lemma response_is_classified_witness :
  appends (trace (snd (process_row (answering 500) sample_files 1 0 acme_row start)))
  = appends (trace start)
    ++ [(failure_file sample_files,
         failure_line sample_time acme_payload ("Status code: " ++ str_int 500)%string)].
Proof.
  refine (proj1 (proj2 (proj2
    (response_is_classified (answering 500) sample_files 1 0 acme_row acme_payload
       {| status_code := 500 |} start
       (snd (make_request (answering 500) API_URL acme_payload default_timeout
               default_max_retries (announced (answering 500) 1 0 start)))
       _ _ _)) _ _)).
  - discriminate.
  - vm_compute. reflexivity.
  - vm_compute. reflexivity.
  - discriminate.
  - discriminate.
Defined.

(** ** Submissions that always time out *)

(** C4, as the code has it. With at least one attempt allowed and every
    attempt timing out, the submitter calls exactly [max_retries] times,
    sleeps one second between two consecutive calls and not after the last,
    and raises the timeout of its last call. The loop of [main] then writes
    one failure line whose description is the fixed text
    [Timeout na requisição], whatever the text of that exception. *)
Theorem timeouts_exhaust_retries (env : environment) (files : log_files) (index : Z)
    (url : string) (body : payload) (timeout max_retries : Z) (w : world) :
  0 < max_retries ->
  (forall j, (j < Z.to_nat max_retries)%nat ->
             exists msg, net env (length (posts (trace w)) + j) = Raise (Timeout msg)) ->
  let request := make_request env url body timeout max_retries in
  exists msg,
    net env (length (posts (trace w)) + (Z.to_nat max_retries - 1)) = Raise (Timeout msg) /\
    fst (request w) = Raise (Timeout msg) /\
    effects (trace (snd (request w)))
    = effects (trace w) ++ backoff_pattern (EvPost url body timeout) (Z.to_nat max_retries) /\
    posts (trace (snd (request w)))
    = posts (trace w) ++ repeat (EvPost url body timeout) (Z.to_nat max_retries) /\
    sleeps (trace (snd (request w)))
    = sleeps (trace w) ++ repeat (EvSleep 1) (Z.to_nat max_retries - 1) /\
    appends (trace (snd (submit env files index body request w)))
    = appends (trace w)
      ++ [(failure_file files,
           failure_line (time_of env (snd (request w))) body "Timeout na requisição")].
Proof.
  intros Hpos Hall request.
  destruct (attempt_loop_all_timeouts env url body timeout max_retries
              (Z.to_nat max_retries) O w) as (msg & Hnet & Hres & Heff); [lia | lia | exact Hall |].
  fold (range max_retries) in Hres, Heff.
  fold (make_request env url body timeout max_retries) in Hres, Heff.
  fold request in Hres, Heff.
  exists msg. split; [exact Hnet|]. split; [exact Hres|]. split; [exact Heff|].
  split; [|split].
  - rewrite <- posts_effects, Heff, posts_app, posts_effects, posts_backoff_pattern.
    reflexivity.
  - rewrite <- sleeps_effects, Heff, sleeps_app, sleeps_effects, sleeps_backoff_pattern.
    reflexivity.
  - rewrite submit_appends, Hres. unfold outcome_entry, exception_message. f_equal.
    subst request. apply make_request_appends.
Qed.

Lemma timeouts_exhaust_retries_witness :
  exists msg,
    net timing_out (length (posts (trace start)) + (Z.to_nat 3 - 1)) = Raise (Timeout msg) /\
    fst (make_request timing_out API_URL acme_payload 45 3 start) = Raise (Timeout msg) /\
    effects (trace (snd (make_request timing_out API_URL acme_payload 45 3 start)))
    = effects (trace start) ++ backoff_pattern (EvPost API_URL acme_payload 45) (Z.to_nat 3) /\
    posts (trace (snd (make_request timing_out API_URL acme_payload 45 3 start)))
    = posts (trace start) ++ repeat (EvPost API_URL acme_payload 45) (Z.to_nat 3) /\
    sleeps (trace (snd (make_request timing_out API_URL acme_payload 45 3 start)))
    = sleeps (trace start) ++ repeat (EvSleep 1) (Z.to_nat 3 - 1) /\
    appends (trace (snd (submit timing_out sample_files 0 acme_payload
                           (make_request timing_out API_URL acme_payload 45 3) start)))
    = appends (trace start)
      ++ [(failure_file sample_files,
           failure_line
             (time_of timing_out
                (snd (make_request timing_out API_URL acme_payload 45 3 start)))
             acme_payload "Timeout na requisição")].
Proof.
  apply (timeouts_exhaust_retries timing_out sample_files 0 API_URL acme_payload 45 3 start).
  - lia.
  - intros j _. eexists. reflexivity.
Defined.

(** C4 as stated fails in its last part: the third and last attempt raises
    a timeout with a text of its own, and the line in the failure log
    carries the fixed text instead of that text. *)
Lemma timeout_text_counterexample :
  fst (make_request timing_out API_URL acme_payload 45 3 start)
  = Raise (Timeout "read timed out on call 2") /\
  exists text,
    appends (trace (snd (submit timing_out sample_files 0 acme_payload
                           (make_request timing_out API_URL acme_payload 45 3) start)))
    = [(failure_file sample_files, text)] /\
    text = failure_line sample_time acme_payload "Timeout na requisição" /\
    text <> failure_line sample_time acme_payload "read timed out on call 2" /\
    occurs_in "read timed out on call 2" text = false.
Proof.
  split; [vm_compute; reflexivity|].
  eexists. split; [vm_compute; reflexivity|].
  split; [vm_compute; reflexivity|].
  split; [vm_compute; discriminate | vm_compute; reflexivity].
Qed.

(** ** Signals do not change what a row does *)

Section Signals.

Variables env env' : environment.
Hypothesis same_net : forall n, net env n = net env' n.
Hypothesis same_clock : forall n, clock env n = clock env' n.

Lemma agree_ret {A} (a : A) : agree (ret a) (ret a).
Proof. intros w w' H. split; [reflexivity | exact H]. Qed.

Lemma agree_raise {A} (e : exn) : agree (@raise A e) (raise e).
Proof. intros w w' H. split; [reflexivity | exact H]. Qed.

Lemma agree_bind {A B} (m m' : M A) (k k' : A -> M B) :
  agree m m' -> (forall a, agree (k a) (k' a)) -> agree (bind m k) (bind m' k').
Proof.
  intros Hm Hk w w' H. unfold bind. destruct (Hm w w' H) as [Hf Hs].
  destruct (m w) as [[a|e] w1], (m' w') as [[a'|e'] w1']; cbn [fst snd] in *;
    try discriminate.
  - injection Hf as <-. apply Hk. exact Hs.
  - injection Hf as <-. split; [reflexivity | exact Hs].
Qed.

Lemma agree_try_except {A} (m m' : M A) (h h' : exn -> M A) :
  agree m m' -> (forall e, agree (h e) (h' e)) -> agree (try_except m h) (try_except m' h').
Proof.
  intros Hm Hh w w' H. unfold try_except. destruct (Hm w w' H) as [Hf Hs].
  destruct (m w) as [[a|e] w1], (m' w') as [[a'|e'] w1']; cbn [fst snd] in *;
    try discriminate.
  - injection Hf as <-. split; [reflexivity | exact Hs].
  - injection Hf as <-. apply Hh. exact Hs.
Qed.

Lemma same_effects_emit e w w' :
  same_effects w w' -> same_effects (emit env e w) (emit env' e w').
Proof. unfold same_effects. intros H. rewrite !effects_emit, H. reflexivity. Qed.

Lemma agree_print text : agree (print env text) (print env' text).
Proof. intros w w' H. split; [reflexivity | apply same_effects_emit; exact H]. Qed.

Lemma agree_sleep seconds : agree (sleep env seconds) (sleep env' seconds).
Proof. intros w w' H. split; [reflexivity | apply same_effects_emit; exact H]. Qed.

Lemma agree_append_file path text :
  agree (append_file env path text) (append_file env' path text).
Proof. intros w w' H. split; [reflexivity | apply same_effects_emit; exact H]. Qed.

Lemma agree_post url body timeout :
  agree (post env url body timeout) (post env' url body timeout).
Proof.
  intros w w' H. unfold post. cbn [fst snd]. split; [|apply same_effects_emit; exact H].
  rewrite <- (posts_effects (trace w)), <- (posts_effects (trace w')), H. apply same_net.
Qed.

Lemma agree_now : agree (now env) (now env').
Proof.
  intros w w' H. unfold now. cbn [fst snd]. split; [|exact H].
  rewrite H, same_clock. reflexivity.
Qed.

Lemma agree_log_result path data response error :
  agree (log_result env path data response error)
        (log_result env' path data response error).
Proof.
  unfold log_result. apply agree_bind; [apply agree_now|]. intros d.
  destruct response as [r|]; [destruct (response_ok r)|]; apply agree_append_file.
Qed.

Lemma agree_prepare_payload r : agree (prepare_payload env r) (prepare_payload env' r).
Proof.
  unfold prepare_payload. destruct (build_payload r) as [p|e]; [apply agree_ret|].
  apply agree_bind; [apply agree_print | intros; apply agree_ret].
Qed.

Lemma agree_attempt_loop url body timeout max_retries attempts :
  agree (attempt_loop env url body timeout max_retries attempts)
        (attempt_loop env' url body timeout max_retries attempts).
Proof.
  induction attempts as [|attempt rest IH]; cbn [attempt_loop]; [apply agree_ret|].
  apply agree_try_except.
  - apply agree_bind; [apply agree_post | intros; apply agree_ret].
  - intros e. destruct e as [m|m|m|m|m|m|m]; try apply agree_raise;
      (destruct (attempt =? max_retries - 1); [apply agree_raise|]);
      (apply agree_bind; [apply agree_print|]; intros _);
      (apply agree_bind; [apply agree_sleep|]; intros _); exact IH.
Qed.

Lemma agree_check_response files index data response :
  agree (check_response env files index data response)
        (check_response env' files index data response).
Proof.
  unfold check_response. apply agree_bind.
  - destruct response; [apply agree_ret | apply agree_raise].
  - intros status. destruct ((status =? 200) || (status =? 201));
      (apply agree_bind; [apply agree_log_result | intros; apply agree_print]).
Qed.

Lemma agree_on_exception files index data e :
  agree (on_exception env files index data e) (on_exception env' files index data e).
Proof.
  unfold on_exception. apply agree_bind; [apply agree_log_result | intros; apply agree_print].
Qed.

Lemma agree_process_row files total_rows index r :
  agree (process_row env files total_rows index r)
        (process_row env' files total_rows index r).
Proof.
  unfold process_row. apply agree_bind; [apply agree_print|]. intros _.
  apply agree_bind; [apply agree_prepare_payload|]. intros [data|]; [|apply agree_ret].
  unfold submit. apply agree_try_except; [|intros e; apply agree_on_exception].
  apply agree_bind; [apply agree_attempt_loop | intros; apply agree_check_response].
Qed.

End Signals.

(** ** The loop over the rows *)

Lemma process_row_returns env files total_rows index r w :
  fst (process_row env files total_rows index r w) = Ret tt.
Proof.
  destruct (build_payload r) as [data|e] eqn:Hb.
  - rewrite (process_row_built _ _ _ _ _ _ _ Hb). apply submit_effects.
  - rewrite (process_row_not_built _ _ _ _ _ _ _ Hb). reflexivity.
Qed.

(** What a row appends: one entry if its payload was built, none if not. *)
Lemma process_row_appends env files total_rows index r w :
  appends (trace (snd (process_row env files total_rows index r w)))
  = appends (trace w)
    ++ match build_payload r with
       | Ret data =>
           let request := make_request env API_URL data default_timeout default_max_retries in
           let reached := request (announced env total_rows index w) in
           [outcome_entry env files data (fst reached) (snd reached)]
       | Raise _ => []
       end.
Proof.
  destruct (build_payload r) as [data|e] eqn:Hb.
  - rewrite (process_row_built _ _ _ _ _ _ _ Hb), submit_appends.
    rewrite make_request_appends, appends_announced. reflexivity.
  - rewrite (process_row_not_built _ _ _ _ _ _ _ Hb). cbn [snd].
    rewrite appends_emit, appends_announced. simpl. rewrite !app_nil_r. reflexivity.
Qed.

Lemma iterrows_stopped env files total_rows index r rest w :
  kill_now w = true ->
  iterrows env files total_rows index (r :: rest) w
  = (Ret tt, emit env (EvPrint "Interrompendo processamento...") w).
Proof. intros H. cbn [iterrows]. rewrite H. reflexivity. Qed.

Lemma iterrows_continues env files total_rows index r rest w :
  kill_now w = false ->
  iterrows env files total_rows index (r :: rest) w
  = iterrows env files total_rows (S index) rest
      (snd (process_row env files total_rows (Z.of_nat index) r w)).
Proof.
  intros H. cbn [iterrows]. rewrite H. unfold bind.
  pose proof (process_row_returns env files total_rows (Z.of_nat index) r w) as Hr.
  destruct (process_row env files total_rows (Z.of_nat index) r w) as [[[]|e] w1];
    [reflexivity | discriminate].
Qed.

Lemma iterrows_effects_stopped env files total_rows index rows w :
  kill_now w = true ->
  effects (trace (snd (iterrows env files total_rows index rows w))) = effects (trace w).
Proof.
  intros H. destruct rows as [|r rest]; [reflexivity|].
  rewrite (iterrows_stopped _ _ _ _ _ _ _ H). apply effects_emit_print.
Qed.

Lemma new_appends_spec (w w' : world) (l : list (string * string)) :
  appends (trace w') = appends (trace w) ++ l -> new_appends w w' = l.
Proof. unfold new_appends. intros ->. apply drop_app_length. Qed.

Lemma row_reports_stopped env files total_rows index rows w :
  kill_now w = true ->
  row_reports env files total_rows index rows w = map (fun _ => (Skipped, [])) rows.
Proof. intros H. destruct rows as [|r rest]; cbn [row_reports]; [|rewrite H]; reflexivity. Qed.

Lemma skipped_reports_empty (rows : list row) :
  concat (map snd (map (fun _ : row => (Skipped, @nil (string * string))) rows)) = [].
Proof. induction rows as [|x rows IH]; [reflexivity | exact IH]. Qed.

(** C2. In a run of the loop every row has one report, in row order; the
    log files end up with what they had plus the entries of the reports in
    that order; a row that reached the submitter has exactly one entry, no
    row has more than one, and a row skipped because of the flag has
    none. *)
Theorem outcomes_follow_rows (env : environment) (files : log_files) (total_rows : Z)
    (index : nat) (rows : list row) (w : world) :
  let reports := row_reports env files total_rows index rows w in
  length reports = length rows /\
  appends (trace (snd (iterrows env files total_rows index rows w)))
  = appends (trace w) ++ concat (map snd reports) /\
  Forall (fun report =>
            (length (snd report) <= 1)%nat /\
            (fst report = Submitted -> length (snd report) = 1%nat) /\
            (fst report = Skipped -> snd report = [])) reports.
Proof.
  revert index w. induction rows as [|r rest IH]; intros index w reports; subst reports.
  - simpl. rewrite app_nil_r. repeat split. constructor.
  - destruct (kill_now w) eqn:Hkill.
    + rewrite (row_reports_stopped _ _ _ _ _ _ Hkill), (iterrows_stopped _ _ _ _ _ _ _ Hkill).
      cbn [snd]. rewrite length_map, appends_emit, skipped_reports_empty.
      split; [reflexivity|]. split; [reflexivity|].
      apply List.Forall_forall. intros report Hin. apply List.in_map_iff in Hin as (x & <- & _).
      simpl. repeat split; try lia. discriminate.
    + rewrite (iterrows_continues _ _ _ _ _ _ _ Hkill). cbn [row_reports]. rewrite Hkill.
      set (w1 := snd (process_row env files total_rows (Z.of_nat index) r w)).
      destruct (IH (S index) w1) as (Hlen & Happ & Hall).
      pose proof (process_row_appends env files total_rows (Z.of_nat index) r w) as Hrow.
      fold w1 in Hrow. rewrite (new_appends_spec _ _ _ Hrow).
      cbn [length map concat fst snd]. split; [rewrite Hlen; reflexivity|]. split.
      * rewrite Happ, Hrow, <- app_assoc. reflexivity.
      * constructor; [|exact Hall]. cbn [fst snd].
        destruct (build_payload r) as [data|e]; simpl; repeat split; try lia; discriminate.
Qed.

(** ** Cancellation *)

(** C5. With the flag set when a row's turn comes, the loop stops: that
    row and the rows after it make no call and leave no log entry. With the
    flag unset at that moment the row is processed to its end even if a
    signal arrives meanwhile: its calls, sleeps and log entry are those of
    the same run without signals, a built payload is logged, and if the
    flag is set when the row is done nothing further happens. *)
Theorem cancellation_between_rows (env : environment) (files : log_files) (total_rows : Z)
    (index : nat) (r : row) (rest : list row) (w : world) :
  (kill_now w = true ->
   effects (trace (snd (iterrows env files total_rows index (r :: rest) w)))
   = effects (trace w)) /\
  (kill_now w = false ->
   let done := snd (process_row env files total_rows (Z.of_nat index) r w) in
   effects (trace done)
   = effects (trace (snd (process_row (without_signals env) files total_rows
                            (Z.of_nat index) r w))) /\
   (forall data, build_payload r = Ret data ->
                 exists entry, appends (trace done) = appends (trace w) ++ [entry]) /\
   (kill_now done = true ->
    effects (trace (snd (iterrows env files total_rows index (r :: rest) w)))
    = effects (trace done))).
Proof.
  split.
  - apply iterrows_effects_stopped.
  - intros Hkill done. split; [|split].
    + apply (agree_process_row env (without_signals env)); try reflexivity.
    + intros data Hb. subst done. rewrite process_row_appends, Hb. eexists. reflexivity.
    + intros Hdone. rewrite (iterrows_continues _ _ _ _ _ _ _ Hkill).
      apply iterrows_effects_stopped. exact Hdone.
Qed.

Lemma cancellation_between_rows_witness :
  let done := snd (process_row flaky_interrupted sample_files 2 (Z.of_nat 0) acme_row start) in
  kill_now start = false /\ kill_now done = true /\
  effects (trace done)
  = effects (trace (snd (process_row (without_signals flaky_interrupted) sample_files 2
                           (Z.of_nat 0) acme_row start))) /\
  (exists entry, appends (trace done) = appends (trace start) ++ [entry]) /\
  effects (trace (snd (iterrows flaky_interrupted sample_files 2 0 [acme_row; acme_row]
                         start)))
  = effects (trace done).
Proof.
  intros done.
  destruct (proj2 (cancellation_between_rows flaky_interrupted sample_files 2 0 acme_row
                     [acme_row] start) eq_refl) as (Hsame & Hlog & Hstop).
  split; [reflexivity|]. split; [vm_compute; reflexivity|]. split; [exact Hsame|].
  split; [apply (Hlog acme_payload); vm_compute; reflexivity|].
  apply Hstop. vm_compute. reflexivity.
Defined.

(** ** Whole runs on the sample inputs *)

(** The Acme row against an endpoint that answers 201: one call, one
    success line, an empty failure log. *)
Example acme_accepted :
  let final := snd (main (answering 201) start) in
  posts (trace final) = [EvPost API_URL acme_payload 45] /\
  appends (trace final)
  = [(success_file sample_files, success_line sample_time acme_payload 201)] /\
  file_lines (failure_file sample_files) (trace final) = [].
Proof. vm_compute. repeat split; reflexivity. Qed.

(** Against an endpoint that answers 500: still one call, and one failure
    line with the status. *)
Example acme_rejected :
  let final := snd (main (answering 500) start) in
  posts (trace final) = [EvPost API_URL acme_payload 45] /\
  sleeps (trace final) = [] /\
  appends (trace final)
  = [(failure_file sample_files,
      failure_line sample_time acme_payload "Status code: 500")].
Proof. vm_compute. repeat split; reflexivity. Qed.

(** Against an endpoint that never answers in time: three calls, two
    sleeps between them, one failure line. *)
Example acme_timed_out :
  let final := snd (main timing_out start) in
  effects (trace final)
  = [EvPost API_URL acme_payload 45; EvSleep 1;
     EvPost API_URL acme_payload 45; EvSleep 1;
     EvPost API_URL acme_payload 45;
     EvAppend (failure_file sample_files)
       (failure_line sample_time acme_payload "Timeout na requisição")].
Proof. vm_compute. reflexivity. Qed.

(** Two rows, a signal during the second call for the first row: the first
    row is retried to its end and logged, the second is skipped. *)
Example interrupted_run_reports :
  row_reports flaky_interrupted sample_files 2 0 [acme_row; acme_row] start
  = [(Submitted, [(success_file sample_files, success_line sample_time acme_payload 201)]);
     (Skipped, [])] /\
  length (posts (trace (snd (iterrows flaky_interrupted sample_files 2 0
                               [acme_row; acme_row] start)))) = 3%nat.
Proof. vm_compute. split; reflexivity. Qed.

(** ** The submitter against any endpoint *)

Section Submitter.

Variable env : environment.
Variables (url : string) (body : payload) (timeout max_retries : Z).

Local Abbreviation call := (EvPost url body timeout).
Local Abbreviation loop := (attempt_loop env url body timeout max_retries).

Lemma backoff_pattern_succ (e : event) (n : nat) :
  (1 <= n)%nat -> backoff_pattern e (S n) = e :: EvSleep 1 :: backoff_pattern e n.
Proof. destruct n; [lia | reflexivity]. Qed.

Lemma backoff_pattern_retries (e : event) (k : nat) :
  concat (repeat [e; EvSleep 1] k) ++ [e] = backoff_pattern e (S k).
Proof.
  induction k as [|k IH]; [reflexivity|].
  rewrite backoff_pattern_succ by lia. cbn [repeat concat].
  rewrite <- app_assoc, IH. reflexivity.
Qed.

(** An attempt that is not retried ends the loop. *)
Lemma attempt_settled attempt rest w :
  transport_failure (net env (length (posts (trace w)))) = false ->
  loop (attempt :: rest) w
  = (settled (net env (length (posts (trace w)))), emit env call w).
Proof.
  intros H. destruct (net env (length (posts (trace w)))) as [resp|e] eqn:Hnet.
  - apply attempt_answered. exact Hnet.
  - destruct e as [m|m|m|m|m|m|m]; try discriminate;
      (apply attempt_crashed; [exact Hnet | discriminate..]).
Qed.

(** A transport failure on the last attempt is raised again. *)
Lemma attempt_gave_up attempt rest w :
  transport_failure (net env (length (posts (trace w)))) = true ->
  attempt = max_retries - 1 ->
  loop (attempt :: rest) w
  = (settled (net env (length (posts (trace w)))), emit env call w).
Proof.
  intros H Hlast. destruct (net env (length (posts (trace w)))) as [resp|e] eqn:Hnet;
    [discriminate|].
  destruct e as [m|m|m|m|m|m|m]; try discriminate.
  - rewrite (attempt_timed_out _ _ _ _ _ _ _ _ _ Hnet).
    replace (attempt =? max_retries - 1) with true by (symmetry; apply Z.eqb_eq; exact Hlast).
    reflexivity.
  - rewrite (attempt_failed _ _ _ _ _ _ _ _ _ Hnet).
    replace (attempt =? max_retries - 1) with true by (symmetry; apply Z.eqb_eq; exact Hlast).
    reflexivity.
Qed.

(** A transport failure on an earlier attempt leads to the next attempt. *)
Lemma attempt_retried attempt rest w :
  transport_failure (net env (length (posts (trace w)))) = true ->
  attempt <> max_retries - 1 ->
  exists note, loop (attempt :: rest) w = loop rest (after_retry env url body timeout note w).
Proof.
  intros H Hlast. destruct (net env (length (posts (trace w)))) as [resp|e] eqn:Hnet;
    [discriminate|].
  destruct e as [m|m|m|m|m|m|m]; try discriminate.
  - exists (timeout_note max_retries attempt).
    rewrite (attempt_timed_out _ _ _ _ _ _ _ _ _ Hnet).
    replace (attempt =? max_retries - 1) with false by (symmetry; apply Z.eqb_neq; exact Hlast).
    reflexivity.
  - exists (error_note max_retries attempt m).
    rewrite (attempt_failed _ _ _ _ _ _ _ _ _ Hnet).
    replace (attempt =? max_retries - 1) with false by (symmetry; apply Z.eqb_neq; exact Hlast).
    reflexivity.
Qed.

(** The effects of the loop over the last [m] attempts: at most [m] calls
    with a sleep between two of them; with an attempt to make, at least one
    call and a result that is not [None]. *)
Lemma attempt_loop_shape :
  forall m a w,
    Z.of_nat (a + m) = max_retries ->
    exists n,
      (n <= m)%nat /\
      ((0 < m)%nat ->
       (1 <= n)%nat /\ fst (loop (map Z.of_nat (seq a m)) w) <> Ret None) /\
      effects (trace (snd (loop (map Z.of_nat (seq a m)) w)))
      = effects (trace w) ++ backoff_pattern call n.
Proof.
  induction m as [|m IH]; intros a w Hsum.
  - exists O. simpl. rewrite app_nil_r. repeat split; lia.
  - cbn [seq map]. set (rest := map Z.of_nat (seq (S a) m)).
    assert (Hone : forall out,
               out <> Ret None ->
               loop (Z.of_nat a :: rest) w = (out, emit env call w) ->
               exists n,
                 (n <= S m)%nat /\
                 ((0 < S m)%nat ->
                  (1 <= n)%nat /\ fst (loop (Z.of_nat a :: rest) w) <> Ret None) /\
                 effects (trace (snd (loop (Z.of_nat a :: rest) w)))
                 = effects (trace w) ++ backoff_pattern call n).
    { intros out Hout ->. exists 1%nat. cbn [fst snd]. rewrite effects_emit.
      repeat split; try lia. exact Hout. }
    assert (Hsettled : settled (net env (length (posts (trace w)))) <> Ret None).
    { destruct (net env (length (posts (trace w)))); discriminate. }
    destruct (transport_failure (net env (length (posts (trace w))))) eqn:Hfail.
    + destruct (Z.eq_dec (Z.of_nat a) (max_retries - 1)) as [Hlast|Hlast].
      * apply (Hone _ Hsettled). apply attempt_gave_up; assumption.
      * destruct (attempt_retried (Z.of_nat a) rest w Hfail Hlast) as [note Hstep].
        rewrite Hstep. subst rest.
        destruct (IH (S a) (after_retry env url body timeout note w)) as (n & Hn & Hpos & Heff);
          [lia|].
        destruct Hpos as [Hn1 Hres]; [lia|].
        exists (S n). split; [lia|]. split; [intros _; split; [lia | exact Hres]|].
        rewrite Heff, effects_after_retry, <- app_assoc, backoff_pattern_succ by lia.
        reflexivity.
    + apply (Hone _ Hsettled). apply attempt_settled. exact Hfail.
Qed.

(** After [k] transport failures, none of them on the last attempt, the
    loop stands at attempt number [k] with [k] calls and [k] sleeps done. *)
Lemma attempt_loop_after_failures :
  forall k a m w,
    Z.of_nat (a + m) = max_retries -> (k < m)%nat ->
    (forall j, (j < k)%nat ->
               transport_failure (net env (length (posts (trace w)) + j)) = true) ->
    exists w',
      loop (map Z.of_nat (seq a m)) w = loop (map Z.of_nat (seq (a + k) (m - k))) w' /\
      effects (trace w') = effects (trace w) ++ concat (repeat [call; EvSleep 1] k) /\
      length (posts (trace w')) = (length (posts (trace w)) + k)%nat.
Proof.
  induction k as [|k IH]; intros a m w Hsum Hk Hall.
  - exists w. rewrite Nat.add_0_r, Nat.sub_0_r, Nat.add_0_r. simpl. rewrite app_nil_r.
    repeat split.
  - destruct m as [|m]; [lia|]. cbn [seq map].
    pose proof (Hall O ltac:(lia)) as H0. rewrite Nat.add_0_r in H0.
    destruct (attempt_retried (Z.of_nat a) (map Z.of_nat (seq (S a) m)) w H0) as [note Hstep];
      [lia|].
    set (w1 := after_retry env url body timeout note w) in *.
    assert (Hp : length (posts (trace w1)) = S (length (posts (trace w)))).
    { subst w1. rewrite posts_after_retry, length_app. simpl. lia. }
    destruct (IH (S a) m w1) as (w' & Hloop & Heff & Hposts); [lia | lia | |].
    + intros j Hj. rewrite Hp.
      replace (S (length (posts (trace w))) + j)%nat
        with (length (posts (trace w)) + S j)%nat by lia.
      apply Hall. lia.
    + exists w'. split; [|split].
      * rewrite Hstep, Hloop. replace (S a + k)%nat with (a + S k)%nat by lia.
        replace (S m - S k)%nat with (m - k)%nat by lia. reflexivity.
      * rewrite Heff. subst w1. rewrite effects_after_retry, <- app_assoc. reflexivity.
      * rewrite Hposts, Hp. lia.
Qed.

End Submitter.

Lemma range_nonpos (n : Z) : n <= 0 -> range n = [].
Proof. intros H. unfold range. replace (Z.to_nat n) with O by lia. reflexivity. Qed.

(** X1. Against any endpoint the effects of one call of the submitter are
    [n] identical POST calls with one sleep of one second between two
    consecutive calls, none after the last, and nothing else: no file is
    touched. [n] never exceeds [max_retries] and is at least 1 when
    [max_retries] is. *)
Theorem make_request_effects_shape (env : environment) (url : string) (body : payload)
    (timeout max_retries : Z) (w : world) :
  exists n,
    Z.of_nat n <= Z.max 0 max_retries /\
    (0 < max_retries -> (1 <= n)%nat) /\
    effects (trace (snd (make_request env url body timeout max_retries w)))
    = effects (trace w) ++ backoff_pattern (EvPost url body timeout) n /\
    posts (trace (snd (make_request env url body timeout max_retries w)))
    = posts (trace w) ++ repeat (EvPost url body timeout) n /\
    sleeps (trace (snd (make_request env url body timeout max_retries w)))
    = sleeps (trace w) ++ repeat (EvSleep 1) (n - 1) /\
    appends (trace (snd (make_request env url body timeout max_retries w)))
    = appends (trace w).
Proof.
  assert (Hshape : exists n,
             Z.of_nat n <= Z.max 0 max_retries /\
             (0 < max_retries -> (1 <= n)%nat) /\
             effects (trace (snd (make_request env url body timeout max_retries w)))
             = effects (trace w) ++ backoff_pattern (EvPost url body timeout) n).
  { destruct (Z_le_gt_dec max_retries 0) as [Hle|Hgt].
    - exists O. unfold make_request. rewrite (range_nonpos _ Hle). simpl.
      rewrite app_nil_r. repeat split; lia.
    - destruct (attempt_loop_shape env url body timeout max_retries
                  (Z.to_nat max_retries) O w) as (n & Hn & Hpos & Heff); [lia|].
      exists n. split; [lia|]. split; [intros _; apply Hpos; lia | exact Heff]. }
  destruct Hshape as (n & Hn & Hpos & Heff). exists n.
  split; [exact Hn|]. split; [exact Hpos|]. split; [exact Heff|]. split; [|split].
  - rewrite <- posts_effects, Heff, posts_app, posts_effects, posts_backoff_pattern.
    reflexivity.
  - rewrite <- sleeps_effects, Heff, sleeps_app, sleeps_effects, sleeps_backoff_pattern.
    reflexivity.
  - apply make_request_appends.
Qed.

(** X2. The submitter returns [None] exactly when it is allowed no
    attempt: with [max_retries <= 0] it does nothing and returns [None];
    with [max_retries >= 1] it returns a response or raises, never
    [None]. *)
Theorem make_request_none_only_without_attempts (env : environment) (url : string)
    (body : payload) (timeout max_retries : Z) (w : world) :
  (max_retries <= 0 -> make_request env url body timeout max_retries w = (Ret None, w)) /\
  (0 < max_retries -> fst (make_request env url body timeout max_retries w) <> Ret None).
Proof.
  split.
  - intros H. unfold make_request. rewrite (range_nonpos _ H). reflexivity.
  - intros H.
    destruct (attempt_loop_shape env url body timeout max_retries
                (Z.to_nat max_retries) O w) as (n & _ & Hpos & _); [lia|].
    apply Hpos. lia.
Qed.

Lemma make_request_none_only_without_attempts_witness :
  make_request timing_out API_URL acme_payload 45 (-2) start = (Ret None, start) /\
  fst (make_request timing_out API_URL acme_payload 45 3 start) <> Ret None.
Proof.
  split.
  - apply (proj1 (make_request_none_only_without_attempts timing_out API_URL acme_payload
                    45 (-2) start)). lia.
  - apply (proj2 (make_request_none_only_without_attempts timing_out API_URL acme_payload
                    45 3 start)). lia.
Defined.

(** X3. The first attempt whose outcome is not a transport failure ends
    the call: after [k] timeouts or request errors, with attempt number [k]
    still allowed, a response is returned and any other exception is raised
    at once, after [k + 1] calls and [k] sleeps. *)
Theorem first_settled_attempt_ends_call (env : environment) (url : string) (body : payload)
    (timeout max_retries : Z) (w : world) (k : nat) :
  Z.of_nat k < max_retries ->
  (forall j, (j < k)%nat ->
             transport_failure (net env (length (posts (trace w)) + j)) = true) ->
  transport_failure (net env (length (posts (trace w)) + k)) = false ->
  fst (make_request env url body timeout max_retries w)
  = settled (net env (length (posts (trace w)) + k)) /\
  effects (trace (snd (make_request env url body timeout max_retries w)))
  = effects (trace w) ++ backoff_pattern (EvPost url body timeout) (S k).
Proof.
  intros Hk Hfail Hsettled.
  destruct (attempt_loop_after_failures env url body timeout max_retries k O
              (Z.to_nat max_retries) w) as (w' & Hloop & Heff & Hposts);
    [lia | lia | exact Hfail |].
  unfold make_request, range. rewrite Hloop.
  destruct (Z.to_nat max_retries - k)%nat as [|m] eqn:Hm; [lia|].
  cbn [seq map]. rewrite <- Hposts in Hsettled.
  rewrite (attempt_settled _ _ _ _ _ _ _ _ Hsettled). cbn [fst snd].
  rewrite Hposts. split; [reflexivity|].
  rewrite effects_emit, Heff, <- app_assoc. simpl effects at 2.
  rewrite backoff_pattern_retries. reflexivity.
Qed.

Lemma first_settled_attempt_ends_call_witness :
  fst (make_request flaky_interrupted API_URL acme_payload 45 3 start)
  = settled (net flaky_interrupted (length (posts (trace start)) + 2)) /\
  effects (trace (snd (make_request flaky_interrupted API_URL acme_payload 45 3 start)))
  = effects (trace start) ++ backoff_pattern (EvPost API_URL acme_payload 45) 3.
Proof.
  apply (first_settled_attempt_ends_call flaky_interrupted API_URL acme_payload 45 3 start 2).
  - lia.
  - intros [|[|j]] Hj; [reflexivity | reflexivity | lia].
  - reflexivity.
Defined.

(** X4. When every allowed attempt ends in a transport failure, timeouts
    and request errors in any mix, the submitter makes exactly
    [max_retries] calls with the sleeps between them and raises the
    exception of the last attempt; the loop of [main] then writes one
    failure line with the message it has for that exception. *)
Theorem transport_failures_exhaust_retries (env : environment) (files : log_files)
    (index : Z) (url : string) (body : payload) (timeout max_retries : Z) (w : world) :
  0 < max_retries ->
  (forall j, (j < Z.to_nat max_retries)%nat ->
             transport_failure (net env (length (posts (trace w)) + j)) = true) ->
  let request := make_request env url body timeout max_retries in
  exists e,
    net env (length (posts (trace w)) + (Z.to_nat max_retries - 1)) = Raise e /\
    fst (request w) = Raise e /\
    effects (trace (snd (request w)))
    = effects (trace w) ++ backoff_pattern (EvPost url body timeout) (Z.to_nat max_retries) /\
    appends (trace (snd (submit env files index body request w)))
    = appends (trace w)
      ++ [(failure_file files,
           failure_line (time_of env (snd (request w))) body (exception_message e))].
Proof.
  intros Hpos Hall request.
  set (n := Z.to_nat max_retries) in *.
  destruct (attempt_loop_after_failures env url body timeout max_retries (n - 1) O n w)
    as (w' & Hloop & Heff & Hposts); [lia | lia | intros j Hj; apply Hall; lia |].
  assert (Hout : request w
                 = (settled (net env (length (posts (trace w)) + (n - 1))),
                    emit env (EvPost url body timeout) w')).
  { subst request. unfold make_request, range. fold n. rewrite Hloop.
    replace (n - (n - 1))%nat with 1%nat by lia. cbn [seq map].
    rewrite <- Hposts. apply attempt_gave_up; [|lia].
    rewrite Hposts. apply Hall. lia. }
  pose proof (Hall (n - 1)%nat ltac:(lia)) as Hlast.
  destruct (net env (length (posts (trace w)) + (n - 1))) as [resp|e] eqn:Hnet;
    [discriminate|].
  exists e. split; [reflexivity|]. rewrite submit_appends, Hout. cbn [fst snd settled].
  split; [reflexivity|]. split; [|].
  - rewrite effects_emit, Heff, <- app_assoc. simpl effects at 2.
    rewrite backoff_pattern_retries. replace (S (n - 1)) with n by lia. reflexivity.
  - unfold outcome_entry. f_equal. rewrite appends_emit.
    rewrite <- (appends_effects (trace w')), Heff, appends_app, appends_effects.
    simpl. rewrite app_nil_r.
    assert (Hnone : appends (concat (repeat [EvPost url body timeout; EvSleep 1] (n - 1))) = []).
    { generalize (n - 1)%nat. intros i. induction i as [|i IH]; [reflexivity | exact IH]. }
    rewrite Hnone. apply app_nil_r.
Qed.

Lemma transport_failures_exhaust_retries_witness :
  exists e,
    net refusing (length (posts (trace start)) + (Z.to_nat 3 - 1)) = Raise e /\
    fst (make_request refusing API_URL acme_payload 45 3 start) = Raise e /\
    effects (trace (snd (make_request refusing API_URL acme_payload 45 3 start)))
    = effects (trace start) ++ backoff_pattern (EvPost API_URL acme_payload 45) (Z.to_nat 3) /\
    appends (trace (snd (submit refusing sample_files 0 acme_payload
                           (make_request refusing API_URL acme_payload 45 3) start)))
    = appends (trace start)
      ++ [(failure_file sample_files,
           failure_line
             (time_of refusing (snd (make_request refusing API_URL acme_payload 45 3 start)))
             acme_payload (exception_message e))].
Proof.
  apply (transport_failures_exhaust_retries refusing sample_files 0 API_URL acme_payload
           45 3 start).
  - lia.
  - intros j _. reflexivity.
Defined.

(** ** Exceptions of the submitter in the log *)

(** X5. A row whose payload was built and whose submission ended in an
    exception leaves exactly one line, in the failure log, and none in the
    success log. The description is the fixed text for a timeout, the
    exception's text after [Erro na requisição: ] for another request error,
    and the exception's text after [Erro inesperado: ] for anything else. *)
Theorem exception_is_classified (env : environment) (files : log_files)
    (total_rows index : Z) (r : row) (data : payload) (e : exn) (w w2 : world) :
  success_file files <> failure_file files ->
  build_payload r = Ret data ->
  make_request env API_URL data default_timeout default_max_retries
    (announced env total_rows index w) = (Raise e, w2) ->
  let out := process_row env files total_rows index r w in
  let description :=
    match e with
    | Timeout _ => "Timeout na requisição"%string
    | RequestException msg => ("Erro na requisição: " ++ msg)%string
    | _ => ("Erro inesperado: " ++ str_exn e)%string
    end in
  fst out = Ret tt /\
  appends (trace (snd out))
  = appends (trace w) ++ [(failure_file files, failure_line (time_of env w2) data description)] /\
  file_lines (failure_file files) (trace (snd out))
  = file_lines (failure_file files) (trace w) ++ [failure_line (time_of env w2) data description] /\
  file_lines (success_file files) (trace (snd out))
  = file_lines (success_file files) (trace w).
Proof.
  intros Hfiles Hbuild Hreq out description.
  assert (Happ : appends (trace (snd out))
                 = appends (trace w)
                   ++ [(failure_file files, failure_line (time_of env w2) data description)]).
  { subst out. rewrite (process_row_built _ _ _ _ _ _ _ Hbuild), submit_appends, Hreq.
    cbn [fst snd]. f_equal.
    rewrite <- (appends_announced env total_rows index w).
    rewrite <- (make_request_appends env API_URL data default_timeout default_max_retries
                  (announced env total_rows index w)), Hreq. reflexivity. }
  split; [|split; [exact Happ | split]].
  - apply process_row_returns.
  - rewrite (file_lines_entry _ _ _ _ Happ). cbn [fst snd].
    rewrite String.eqb_refl. reflexivity.
  - rewrite (file_lines_entry _ _ _ _ Happ). cbn [fst snd].
    replace (String.eqb (failure_file files) (success_file files)) with false.
    + apply app_nil_r.
    + symmetry. apply String.eqb_neq. intros H. apply Hfiles. symmetry. exact H.
Qed.

Lemma exception_is_classified_witness :
  appends (trace (snd (process_row crashing sample_files 1 0 acme_row start)))
  = appends (trace start)
    ++ [(failure_file sample_files,
         failure_line sample_time acme_payload "Erro inesperado: unsupported operation")].
Proof.
  refine (proj1 (proj2
    (exception_is_classified crashing sample_files 1 0 acme_row acme_payload
       (OtherException "unsupported operation") start
       (snd (make_request crashing API_URL acme_payload default_timeout
               default_max_retries (announced crashing 1 0 start)))
       _ _ _))).
  - discriminate.
  - vm_compute. reflexivity.
  - vm_compute. reflexivity.
Defined.

(** ** More on the payload builder *)

(** X6. A row that lacks any one of the seven columns builds no payload:
    [prepare_payload] returns [None], and its only effect is console
    output. *)
Theorem missing_column_builds_nothing (env : environment) (r : row) (col : string)
    (w : world) :
  In col required_columns ->
  r !! col = None ->
  (exists e, build_payload r = Raise e) /\
  fst (prepare_payload env r w) = Ret None /\
  effects (trace (snd (prepare_payload env r w))) = effects (trace w).
Proof.
  intros Hin Hnone.
  destruct (build_payload r) as [p|e] eqn:Hb.
  - exfalso. apply build_payload_inv in Hb
      as (c1 & c2 & c3 & c4 & c5 & c6 & c7 & H1 & H2 & H3 & H4 & H5 & H6 & H7 & _).
    simpl in Hin.
    destruct Hin as [<-|[<-|[<-|[<-|[<-|[<-|[<-|[]]]]]]]]; congruence.
  - split; [exists e; reflexivity|].
    rewrite (prepare_payload_failed env r e w Hb). cbn [fst snd].
    split; [reflexivity | apply effects_emit_print].
Qed.

Lemma missing_column_builds_nothing_witness :
  (exists e, build_payload no_team_row = Raise e) /\
  fst (prepare_payload (answering 201) no_team_row start) = Ret None /\
  effects (trace (snd (prepare_payload (answering 201) no_team_row start)))
  = effects (trace start).
Proof.
  apply (missing_column_builds_nothing (answering 201) no_team_row "team_id" start).
  - simpl. tauto.
  - vm_compute. reflexivity.
Defined.



(** X8. Unlike [stage_id], the columns [user_id] and [team_id] have no
    default: a row in which one of them holds the missing-value marker or
    [None] builds no payload. *)
Theorem empty_id_builds_nothing (r : row) (col : string) (c : cell) :
  col = "user_id"%string \/ col = "team_id"%string ->
  r !! col = Some c ->
  notna c = false ->
  exists e, build_payload r = Raise e.
Proof.
  intros Hcol Hc Hna.
  destruct (build_payload r) as [p|e] eqn:Hb; [|exists e; reflexivity].
  exfalso. apply build_payload_inv in Hb
    as (c1 & c2 & c3 & c4 & c5 & c6 & c7 & _ & _ & _ & Huser & Hteam & _ & _
        & _ & _ & _ & Hu & Ht & _).
  destruct Hcol as [->| ->].
  - rewrite Hc in Huser. injection Huser as <-.
    destruct c; simpl in Hna, Hu; discriminate.
  - rewrite Hc in Hteam. injection Hteam as <-.
    destruct c; simpl in Hna, Ht; discriminate.
Qed.

Lemma empty_id_builds_nothing_witness :
  exists e, build_payload (<["team_id" := CNaN]> acme_row) = Raise e.
Proof.
  apply (empty_id_builds_nothing (<["team_id" := CNaN]> acme_row) "team_id" CNaN).
  - right. reflexivity.
  - vm_compute. reflexivity.
  - reflexivity.
Defined.

(** The comma-split of a text. *)
Lemma split_comma_not_empty (s : string) : split_comma s <> [].
Proof.
  destruct s as [|c rest]; simpl; [discriminate|].
  destruct (Ascii.eqb c ","); [discriminate|].
  destruct (split_comma rest); discriminate.
Qed.

Lemma split_comma_join (s : string) : String.concat "," (split_comma s) = s.
Proof.
  induction s as [|c rest IH]; [reflexivity|].
  pose proof (split_comma_not_empty rest) as Hne. cbn [split_comma].
  destruct (Ascii.eqb_spec c ","%char) as [->|Hc].
  - destruct (split_comma rest) as [|piece pieces] eqn:E; [destruct (Hne eq_refl)|].
    change (String.concat "," (""%string :: piece :: pieces))
      with (String "," (String.concat "," (piece :: pieces))).
    rewrite IH. reflexivity.
  - destruct (split_comma rest) as [|piece pieces] eqn:E; [destruct (Hne eq_refl)|].
    destruct pieces as [|piece' pieces].
    + simpl in *. rewrite IH. reflexivity.
    + change (String.concat "," (String c piece :: piece' :: pieces))
        with (String c (piece ++ "," ++ String.concat "," (piece' :: pieces))%string).
      change (String.concat "," (piece :: piece' :: pieces))
        with (piece ++ "," ++ String.concat "," (piece' :: pieces))%string in IH.
      rewrite IH. reflexivity.
Qed.

Lemma split_comma_pieces (s : string) :
  Forall (fun piece => contains_char "," piece = false) (split_comma s) /\
  length (split_comma s) = S (count_char "," s).
Proof.
  induction s as [|c rest [IHf IHl]]; [split; [repeat constructor | reflexivity]|].
  pose proof (split_comma_not_empty rest) as Hne. cbn [split_comma count_char].
  assert (Hsym : Ascii.eqb ","%char c = Ascii.eqb c ","%char) by apply Ascii.eqb_sym.
  rewrite Hsym. destruct (Ascii.eqb c ","%char) eqn:Hc.
  - split; [constructor; [reflexivity | exact IHf] | simpl; rewrite IHl; reflexivity].
  - destruct (split_comma rest) as [|piece pieces] eqn:E; [destruct (Hne eq_refl)|].
    split; [|simpl in *; exact IHl].
    apply Forall_cons in IHf as [Hp Hps]. constructor; [|exact Hps].
    cbn [contains_char]. rewrite Hsym. exact Hp.
Qed.

(** X9. The tags of a payload built from a row whose [tag_ids] cell is a
    text give that text back when joined with commas; there is one tag more
    than the text has commas, and no tag contains a comma. *)
Theorem tag_ids_round_trip (r : row) (p : payload) (s : string) :
  build_payload r = Ret p ->
  r !! "tag_ids" = Some (CStr s) ->
  String.concat "," (tag_ids p) = s /\
  length (tag_ids p) = S (count_char "," s) /\
  Forall (fun tag => contains_char "," tag = false) (tag_ids p).
Proof.
  intros H Hs. apply build_payload_inv in H
    as (c1 & c2 & c3 & c4 & c5 & c6 & c7 & _ & _ & _ & _ & _ & Htag & _
        & _ & _ & _ & _ & _ & Hp & _).
  rewrite Hs in Htag. injection Htag as <-. rewrite Hp.
  split; [apply split_comma_join|]. split; apply split_comma_pieces.
Qed.

Lemma tag_ids_round_trip_witness :
  String.concat "," (tag_ids acme_payload) = "a,b"%string /\
  length (tag_ids acme_payload) = S (count_char "," "a,b") /\
  Forall (fun tag => contains_char "," tag = false) (tag_ids acme_payload).
Proof.
  apply (tag_ids_round_trip acme_row acme_payload "a,b").
  - vm_compute. reflexivity.
  - vm_compute. reflexivity.
Defined.

(** ** Whole rows and whole runs *)

Lemma effects_announced env total_rows index w :
  effects (trace (announced env total_rows index w)) = effects (trace w).
Proof. apply effects_emit_print. Qed.

Lemma process_row_effects env files total_rows index r w :
  match build_payload r with
  | Ret data =>
      let reached := make_request env API_URL data default_timeout default_max_retries
                       (announced env total_rows index w) in
      exists n,
        (1 <= n <= 3)%nat /\
        effects (trace (snd (process_row env files total_rows index r w)))
        = effects (trace w)
          ++ backoff_pattern (EvPost API_URL data default_timeout) n
          ++ [EvAppend (fst (outcome_entry env files data (fst reached) (snd reached)))
                       (snd (outcome_entry env files data (fst reached) (snd reached)))]
  | Raise _ =>
      effects (trace (snd (process_row env files total_rows index r w))) = effects (trace w)
  end.
Proof.
  destruct (build_payload r) as [data|e] eqn:Hb.
  - intros reached.
    destruct (attempt_loop_shape env API_URL data default_timeout default_max_retries
                3 0 (announced env total_rows index w) eq_refl) as (n & Hn & Hpos & Heff).
    exists n. split; [split; [apply Hpos; lia | exact Hn]|].
    rewrite (process_row_built _ _ _ _ _ _ _ Hb).
    rewrite (proj2 (submit_effects env files index data _ _)).
    change (make_request env API_URL data default_timeout default_max_retries
              (announced env total_rows index w)) with reached.
    change (attempt_loop env API_URL data default_timeout default_max_retries
              (map Z.of_nat (seq 0 3)) (announced env total_rows index w))
      with reached in Heff.
    rewrite Heff, effects_announced, <- app_assoc. reflexivity.
  - rewrite (process_row_not_built _ _ _ _ _ _ _ Hb). cbn [snd].
    rewrite effects_emit_print. apply effects_announced.
Qed.

(** X10. The effects of one row, against any endpoint and with or without
    signals. A row whose payload is built makes between one and three POST
    calls of that payload to the fixed address with a timeout of 45
    seconds, with one sleep of one second between two calls, and then
    appends exactly one log entry. A row whose payload is not built has no
    effect beyond console output. *)
Theorem row_effects (env : environment) (files : log_files) (total_rows index : Z)
    (r : row) (w : world) :
  match build_payload r with
  | Ret data =>
      exists n path text,
        (1 <= n <= 3)%nat /\
        effects (trace (snd (process_row env files total_rows index r w)))
        = effects (trace w)
          ++ backoff_pattern (EvPost "http://127.0.0.1:8000/opportunities/" data 45) n
          ++ [EvAppend path text] /\
        (path = success_file files \/ path = failure_file files)
  | Raise _ =>
      effects (trace (snd (process_row env files total_rows index r w))) = effects (trace w)
  end.
Proof.
  pose proof (process_row_effects env files total_rows index r w) as H.
  destruct (build_payload r) as [data|e]; [|exact H].
  destruct H as (n & Hn & Heff).
  eexists n, _, _. split; [exact Hn|]. split; [exact Heff|].
  unfold outcome_entry.
  destruct (fst (make_request env API_URL data default_timeout default_max_retries
                   (announced env total_rows index w))) as [[resp|]|e];
    try (right; reflexivity).
  destruct ((status_code resp =? 200) || (status_code resp =? 201));
    [left | right]; reflexivity.
Qed.

Lemma iterrows_returns env files total_rows rows :
  forall index w, fst (iterrows env files total_rows index rows w) = Ret tt.
Proof.
  induction rows as [|r rest IH]; intros index w; [reflexivity|].
  destruct (kill_now w) eqn:Hkill.
  - rewrite (iterrows_stopped _ _ _ _ _ _ _ Hkill). reflexivity.
  - rewrite (iterrows_continues _ _ _ _ _ _ _ Hkill). apply IH.
Qed.





(** [main], step by step. *)
Lemma main_unreadable env w0 e :
  excel env EXCEL_FILE = Raise e ->
  main env w0
  = (Ret tt, emit env (EvPrint ("Erro ao ler arquivo Excel: " ++ str_exn e)%string)
               (files_named env w0)).
Proof.
  intros H. unfold main, bind, create_log_files, bind, now, ret, print, read_excel_file.
  rewrite H. reflexivity.
Qed.

Lemma main_readable env w0 rows :
  excel env EXCEL_FILE = Ret rows ->
  main env w0
  = (Ret tt,
     emit env (EvPrint (newline ++ "Processamento finalizado!")%string)
       (snd (iterrows env (files_of_run env w0) (Z.of_nat (length rows)) 0 rows
               (loop_start env w0 rows)))).
Proof.
  intros H.
  pose proof (iterrows_returns env (files_of_run env w0) (Z.of_nat (length rows)) rows 0
                (loop_start env w0 rows)) as Hr.
  unfold loop_start, files_named, reset, files_of_run, time_of in *.
  unfold main, create_log_files, read_excel_file, bind, now, ret, print. rewrite H.
  cbn [trace] in *.
  destruct (iterrows _ _ _ _ _ _) as [[[]|e] w3]; [reflexivity | discriminate].
Qed.

Lemma effects_loop_start env w0 rows :
  effects (trace (loop_start env w0 rows)) = effects (trace w0).
Proof. unfold loop_start, files_named. rewrite !effects_emit_print. reflexivity. Qed.





(** X13. [main] never ends in an exception, whatever the spreadsheet
    reader, the endpoint and the signals do. *)
Theorem main_never_raises (env : environment) (w0 : world) :
  fst (main env w0) = Ret tt.
Proof.
  destruct (excel env EXCEL_FILE) as [rows|e] eqn:H.
  - rewrite (main_readable _ _ _ H). reflexivity.
  - rewrite (main_unreadable _ _ _ H). reflexivity.
Qed.

(** X14. When the spreadsheet cannot be read, the run reports the reader's
    error on the console and stops: no call, no sleep, no log entry, and
    the closing line [Processamento finalizado!] is not printed. *)
Theorem unreadable_spreadsheet_stops_run (env : environment) (w0 : world) (e : exn) :
  excel env EXCEL_FILE = Raise e ->
  exists t,
    trace (snd (main env w0)) = trace w0 ++ t /\
    effects t = [] /\
    In (EvPrint ("Erro ao ler arquivo Excel: " ++ str_exn e)%string) t /\
    ~ In (EvPrint (newline ++ "Processamento finalizado!")%string) t.
Proof.
  intros H. rewrite (main_unreadable _ _ _ H). cbn [snd]. unfold files_named.
  rewrite !emit_trace. cbn [reset trace]. rewrite <- app_assoc.
  eexists. split; [reflexivity|]. split; [|split].
  - rewrite effects_app. simpl. rewrite !effects_signal_note. reflexivity.
  - apply in_or_app. right. left. reflexivity.
  - unfold signal_note. intros Hin. apply in_app_or in Hin.
    destruct Hin as [Hin|Hin]; simpl in Hin.
    + destruct Hin as [Hin|Hin]; [discriminate|].
      destruct (interrupted env _); simpl in Hin; [destruct Hin as [Hin|[]]|destruct Hin].
      discriminate.
    + destruct Hin as [Hin|Hin]; [discriminate|].
      destruct (interrupted env _); simpl in Hin; [destruct Hin as [Hin|[]]|destruct Hin].
      discriminate.
Qed.

Lemma unreadable_spreadsheet_stops_run_witness :
  exists t,
    trace (snd (main unreadable start)) = trace start ++ t /\
    effects t = [] /\
    In (EvPrint ("Erro ao ler arquivo Excel: "
                 ++ str_exn (OtherException "No such file or directory: crm.xlsx"))%string) t /\
    ~ In (EvPrint (newline ++ "Processamento finalizado!")%string) t.
Proof.
  apply (unreadable_spreadsheet_stops_run unreadable start). reflexivity.
Defined.

(** ** No signal is lost *)

Section Heeding.

Variable env : environment.

Lemma quiet_between_trans w1 w2 w3 :
  quiet_between env w1 w2 -> quiet_between env w2 w3 -> quiet_between env w1 w3.
Proof.
  intros H12 H23 p Hp. destruct (Nat.lt_ge_cases p (length (trace w2))) as [Hlt|Hge].
  - apply H12. lia.
  - apply H23. lia.
Qed.

Lemma heeds_ret {A} (a : A) : heeds_signals env (ret a).
Proof. intros w. cbn. split; [lia|]. intros H. split; [exact H | intros p Hp; lia]. Qed.

Lemma heeds_raise {A} (e : exn) : heeds_signals env (@raise A e).
Proof. intros w. cbn. split; [lia|]. intros H. split; [exact H | intros p Hp; lia]. Qed.

Lemma heeds_now : heeds_signals env (now env).
Proof. intros w. cbn. split; [lia|]. intros H. split; [exact H | intros p Hp; lia]. Qed.

Lemma emit_heeds e w :
  (length (trace w) <= length (trace (emit env e w)))%nat /\
  (kill_now (emit env e w) = false ->
   kill_now w = false /\ quiet_between env w (emit env e w)).
Proof.
  rewrite emit_kill_now, emit_trace, length_app. split; [lia|].
  intros H. apply orb_false_iff in H as [Hk Hi]. split; [exact Hk|].
  intros p Hp. rewrite emit_trace, length_app in Hp. unfold signal_note in Hp.
  rewrite Hi in Hp. simpl in Hp. assert (p = length (trace w)) as -> by lia. exact Hi.
Qed.

Lemma heeds_print text : heeds_signals env (print env text).
Proof. intros w. apply emit_heeds. Qed.

Lemma heeds_sleep seconds : heeds_signals env (sleep env seconds).
Proof. intros w. apply emit_heeds. Qed.

Lemma heeds_append_file path text : heeds_signals env (append_file env path text).
Proof. intros w. apply emit_heeds. Qed.

Lemma heeds_post url body timeout : heeds_signals env (post env url body timeout).
Proof. intros w. apply emit_heeds. Qed.

Lemma heeds_bind {A B} (m : M A) (k : A -> M B) :
  heeds_signals env m -> (forall a, heeds_signals env (k a)) -> heeds_signals env (bind m k).
Proof.
  intros Hm Hk w. unfold bind. destruct (Hm w) as [Hlen Hflag].
  destruct (m w) as [[a|e] w1]; cbn [fst snd] in *; [|split; assumption].
  destruct (Hk a w1) as [Hlen' Hflag']. split; [lia|]. intros H.
  destruct (Hflag' H) as [H1 Hq1]. destruct (Hflag H1) as [H0 Hq0].
  split; [exact H0 | exact (quiet_between_trans _ _ _ Hq0 Hq1)].
Qed.

Lemma heeds_try_except {A} (m : M A) (h : exn -> M A) :
  heeds_signals env m -> (forall e, heeds_signals env (h e)) ->
  heeds_signals env (try_except m h).
Proof.
  intros Hm Hh w. unfold try_except. destruct (Hm w) as [Hlen Hflag].
  destruct (m w) as [[a|e] w1]; cbn [fst snd] in *; [split; assumption|].
  destruct (Hh e w1) as [Hlen' Hflag']. split; [lia|]. intros H.
  destruct (Hflag' H) as [H1 Hq1]. destruct (Hflag H1) as [H0 Hq0].
  split; [exact H0 | exact (quiet_between_trans _ _ _ Hq0 Hq1)].
Qed.

Lemma heeds_log_result path data response error :
  heeds_signals env (log_result env path data response error).
Proof.
  unfold log_result. apply heeds_bind; [apply heeds_now|]. intros d.
  destruct response as [r|]; [destruct (response_ok r)|]; apply heeds_append_file.
Qed.

Lemma heeds_prepare_payload r : heeds_signals env (prepare_payload env r).
Proof.
  unfold prepare_payload. destruct (build_payload r) as [p|e]; [apply heeds_ret|].
  apply heeds_bind; [apply heeds_print | intros; apply heeds_ret].
Qed.

Lemma heeds_attempt_loop url body timeout max_retries attempts :
  heeds_signals env (attempt_loop env url body timeout max_retries attempts).
Proof.
  induction attempts as [|attempt rest IH]; cbn [attempt_loop]; [apply heeds_ret|].
  apply heeds_try_except.
  - apply heeds_bind; [apply heeds_post | intros; apply heeds_ret].
  - intros e. destruct e as [m|m|m|m|m|m|m]; try apply heeds_raise;
      (destruct (attempt =? max_retries - 1); [apply heeds_raise|]);
      (apply heeds_bind; [apply heeds_print|]; intros _);
      (apply heeds_bind; [apply heeds_sleep|]; intros _); exact IH.
Qed.

Lemma heeds_process_row files total_rows index r :
  heeds_signals env (process_row env files total_rows index r).
Proof.
  unfold process_row. apply heeds_bind; [apply heeds_print|]. intros _.
  apply heeds_bind; [apply heeds_prepare_payload|]. intros [data|]; [|apply heeds_ret].
  unfold submit. apply heeds_try_except.
  - apply heeds_bind; [apply heeds_attempt_loop|]. intros response.
    unfold check_response. apply heeds_bind.
    + destruct response; [apply heeds_ret | apply heeds_raise].
    + intros status. destruct ((status =? 200) || (status =? 201));
        (apply heeds_bind; [apply heeds_log_result | intros; apply heeds_print]).
  - intros e. unfold on_exception.
    apply heeds_bind; [apply heeds_log_result | intros; apply heeds_print].
Qed.

Lemma heeds_iterrows files total_rows rows :
  forall index, heeds_signals env (iterrows env files total_rows index rows).
Proof.
  induction rows as [|r rest IH]; intros index; [apply heeds_ret|].
  intros w.
  pose proof (heeds_print "Interrompendo processamento..." w) as Hstop.
  pose proof (heeds_bind (process_row env files total_rows (Z.of_nat index) r)
                (fun _ => iterrows env files total_rows (S index) rest)
                (heeds_process_row files total_rows (Z.of_nat index) r)
                (fun _ => IH (S index)) w) as Hgo.
  cbn [iterrows]. destruct (kill_now w); [exact Hstop | exact Hgo].
Qed.

End Heeding.

(** X15. No signal is lost and the flag is never cleared. Whatever the
    loop does for the rows it is given (and so for a single row): the
    trace only grows; with the flag set at the start the flag is set at the
    end; and a signal delivered during any of the events in between leaves
    the flag set at the end. *)
Theorem no_signal_is_lost (env : environment) (files : log_files) (total_rows : Z)
    (index : nat) (rows : list row) (w : world) :
  let w' := snd (iterrows env files total_rows index rows w) in
  (length (trace w) <= length (trace w'))%nat /\
  (kill_now w = true -> kill_now w' = true) /\
  (forall p, (length (trace w) <= p < length (trace w'))%nat ->
             interrupted env p = true -> kill_now w' = true).
Proof.
  intros w'. destruct (heeds_iterrows env files total_rows rows index w) as [Hlen Hflag].
  fold w' in Hlen, Hflag. split; [exact Hlen|]. split.
  - intros Hset. destruct (kill_now w') eqn:E; [reflexivity|].
    destruct (Hflag eq_refl) as [H0 _]. congruence.
  - intros p Hp Hsig. destruct (kill_now w') eqn:E; [reflexivity|].
    destruct (Hflag eq_refl) as [_ Hq]. rewrite (Hq p Hp) in Hsig. discriminate.
Qed.

Lemma no_signal_is_lost_witness :
  kill_now (snd (iterrows flaky_interrupted sample_files 2 0 [acme_row; acme_row] start))
  = true.
Proof.
  refine (proj2 (proj2 (no_signal_is_lost flaky_interrupted sample_files 2 0
                          [acme_row; acme_row] start)) 4%nat _ _).
  - vm_compute. split; lia.
  - reflexivity.
Defined.

(** X16. A signal delivered while [main] prints its first line, before the
    loop starts, cancels the whole run: the spreadsheet is still read, but
    no row is processed, so there is no call, no sleep and no log entry. *)
Theorem signal_at_start_cancels_run (env : environment) (w0 : world) (rows : list row) :
  excel env EXCEL_FILE = Ret rows ->
  interrupted env (length (trace w0)) = true ->
  fst (main env w0) = Ret tt /\
  effects (trace (snd (main env w0))) = effects (trace w0) /\
  kill_now (snd (main env w0)) = true.
Proof.
  intros Hread Hsig. rewrite (main_readable _ _ _ Hread). cbn [fst snd].
  assert (Hkill : kill_now (loop_start env w0 rows) = true).
  { unfold loop_start, files_named. rewrite !emit_kill_now. cbn [reset trace kill_now].
    rewrite Hsig. reflexivity. }
  split; [reflexivity|]. split.
  - rewrite effects_emit_print, (iterrows_effects_stopped _ _ _ _ _ _ Hkill).
    apply effects_loop_start.
  - rewrite emit_kill_now.
    destruct (heeds_iterrows env (files_of_run env w0) (Z.of_nat (length rows)) rows 0
                (loop_start env w0 rows)) as [_ Hflag].
    destruct (kill_now (snd (iterrows env (files_of_run env w0) (Z.of_nat (length rows)) 0
                               rows (loop_start env w0 rows)))) eqn:E; [reflexivity|].
    destruct (Hflag eq_refl) as [H0 _]. congruence.
Qed.

Lemma signal_at_start_cancels_run_witness :
  fst (main interrupted_at_start start) = Ret tt /\
  effects (trace (snd (main interrupted_at_start start))) = effects (trace start) /\
  kill_now (snd (main interrupted_at_start start)) = true.
Proof.
  apply (signal_at_start_cancels_run interrupted_at_start start [acme_row; acme_row]);
    reflexivity.
Defined.

(** ** Numbers written as text *)

Lemma digits_value_uint (d : Decimal.uint) :
  forall acc n,
    digits_value (NilEmpty.string_of_uint d) true acc n
    = Some (digits_acc d acc, (n + Decimal.nb_digits d)%nat).
Proof.
  induction d as [|d IH|d IH|d IH|d IH|d IH|d IH|d IH|d IH|d IH|d IH]; intros acc n.
  1: { cbn [NilEmpty.string_of_uint digits_acc Decimal.nb_digits digits_value].
       rewrite Nat.add_0_r. reflexivity. }
  all: cbn [NilEmpty.string_of_uint digits_acc Decimal.nb_digits].
  all: etransitivity; [apply (IH _ (S n))|].
  all: replace (n + S (Decimal.nb_digits d))%nat with (S n + Decimal.nb_digits d)%nat by lia.
  all: match goal with
       | |- context [Z.of_N ?x] =>
           let v := eval vm_compute in (Z.of_N x) in change (Z.of_N x) with v
       end.
  all: rewrite ?Z.add_0_r; reflexivity.
Qed.

Lemma digits_value_first (d : Decimal.uint) (acc : Z) (n : nat) :
  d <> Decimal.Nil ->
  digits_value (NilEmpty.string_of_uint d) false acc n
  = Some (digits_acc d acc, (n + Decimal.nb_digits d)%nat).
Proof.
  intros Hd. rewrite <- digits_value_uint. destruct d; [destruct (Hd eq_refl) | reflexivity..].
Qed.

Lemma of_uint_acc_digits (d : Decimal.uint) :
  forall acc : positive, Z.pos (Pos.of_uint_acc d acc) = digits_acc d (Z.pos acc).
Proof.
  induction d as [|d IH|d IH|d IH|d IH|d IH|d IH|d IH|d IH|d IH|d IH]; intros acc;
    cbn [Pos.of_uint_acc digits_acc]; [reflexivity | ..];
    rewrite IH; f_equal; lia.
Qed.

Lemma digits_acc_value (d : Decimal.uint) : digits_acc d 0 = Z.of_N (Pos.of_uint d).
Proof.
  induction d as [|d IH|d IH|d IH|d IH|d IH|d IH|d IH|d IH|d IH|d IH];
    cbn [Pos.of_uint digits_acc]; [reflexivity | exact IH | ..];
    cbn [Z.of_N]; rewrite of_uint_acc_digits; reflexivity.
Qed.

Lemma length_string_of_uint (d : Decimal.uint) :
  String.length (NilEmpty.string_of_uint d) = Decimal.nb_digits d.
Proof. induction d; cbn; congruence. Qed.

Lemma lstrip_string_of_uint (d : Decimal.uint) :
  lstrip (NilEmpty.string_of_uint d) = NilEmpty.string_of_uint d.
Proof. destruct d; reflexivity. Qed.

Lemma rstrip_string_of_uint (d : Decimal.uint) :
  rstrip (NilEmpty.string_of_uint d) = NilEmpty.string_of_uint d.
Proof.
  induction d as [|d IH|d IH|d IH|d IH|d IH|d IH|d IH|d IH|d IH|d IH];
    [reflexivity | ..];
    cbn [NilEmpty.string_of_uint rstrip]; rewrite IH;
    destruct (NilEmpty.string_of_uint d); reflexivity.
Qed.

(** [int] of the decimal digits of a number, and of the digits after a
    minus sign. *)
Lemma int_of_digits (d : Decimal.uint) :
  d <> Decimal.Nil -> (Decimal.nb_digits d <= 4300)%nat ->
  int_of_str (NilEmpty.string_of_uint d) = Ret (digits_acc d 0) /\
  int_of_str (String "-" (NilEmpty.string_of_uint d)) = Ret (- digits_acc d 0).
Proof.
  intros Hd Hlen.
  assert (Hlimit : (max_str_digits <? 0 + Decimal.nb_digits d)%nat = false).
  { apply Nat.ltb_ge. unfold max_str_digits. lia. }
  split.
  - unfold int_of_str. rewrite lstrip_string_of_uint, rstrip_string_of_uint.
    replace (match NilEmpty.string_of_uint d with
             | String "-"%char rest => (true, rest)
             | String "+"%char rest => (false, rest)
             | _ => (false, NilEmpty.string_of_uint d)
             end) with (false, NilEmpty.string_of_uint d)
      by (destruct d; reflexivity).
    rewrite (digits_value_first d 0 0 Hd), Hlimit. reflexivity.
  - assert (Hl : lstrip (String "-" (NilEmpty.string_of_uint d))
                 = String "-" (NilEmpty.string_of_uint d)) by reflexivity.
    assert (Hr : rstrip (String "-" (NilEmpty.string_of_uint d))
                 = String "-" (NilEmpty.string_of_uint d)).
    { cbn [rstrip]. rewrite rstrip_string_of_uint.
      destruct (NilEmpty.string_of_uint d); reflexivity. }
    unfold int_of_str. rewrite Hl, Hr. cbv iota beta.
    rewrite (digits_value_first d 0 0 Hd), Hlimit. reflexivity.
Qed.

Lemma to_uint_not_nil (p : positive) : Pos.to_uint p <> Decimal.Nil.
Proof.
  intros H. pose proof (DecimalPos.Unsigned.of_to p) as Hp. rewrite H in Hp. discriminate.
Qed.

Lemma int_of_str_int (z : Z) :
  (String.length (str_int z) <= 4300)%nat -> int_of_str (str_int z) = Ret z.
Proof.
  unfold str_int. destruct z as [|p|p]; intros Hlen.
  - vm_compute. reflexivity.
  - cbn [Z.to_int NilZero.string_of_int] in *.
    pose proof (to_uint_not_nil p) as Hd.
    assert (Hs : NilZero.string_of_uint (Pos.to_uint p)
                 = NilEmpty.string_of_uint (Pos.to_uint p))
      by (destruct (Pos.to_uint p); [destruct (Hd eq_refl) | reflexivity..]).
    rewrite Hs in *. rewrite length_string_of_uint in Hlen.
    rewrite (proj1 (int_of_digits _ Hd Hlen)), digits_acc_value,
      DecimalPos.Unsigned.of_to. reflexivity.
  - cbn [Z.to_int NilZero.string_of_int] in *.
    pose proof (to_uint_not_nil p) as Hd.
    assert (Hs : NilZero.string_of_uint (Pos.to_uint p)
                 = NilEmpty.string_of_uint (Pos.to_uint p))
      by (destruct (Pos.to_uint p); [destruct (Hd eq_refl) | reflexivity..]).
    rewrite Hs in *. cbn [String.length] in Hlen. rewrite length_string_of_uint in Hlen.
    rewrite (proj2 (int_of_digits _ Hd ltac:(lia))), digits_acc_value,
      DecimalPos.Unsigned.of_to. reflexivity.
Qed.

(** X17. A number written out in decimal is read back as that number: in
    the columns [user_id], [team_id] and [stage_id] a text cell holding the
    decimal form of an integer (of at most 4300 characters) gives the same
    payload, or the same failure, as the integer cell. *)
Theorem numeric_text_reads_as_number (r : row) (col : string) (z : Z) :
  (String.length (str_int z) <= 4300)%nat ->
  col = "user_id"%string \/ col = "team_id"%string \/ col = "stage_id"%string ->
  int_cell (CStr (str_int z)) = Ret z /\
  build_payload (<[col := CStr (str_int z)]> r) = build_payload (<[col := CInt z]> r).
Proof.
  intros Hlen Hcol.
  assert (Hint : int_cell (CStr (str_int z)) = Ret z) by (apply int_of_str_int; exact Hlen).
  split; [exact Hint|].
  unfold build_payload, getitem. destruct Hcol as [->|[->| ->]].
  - rewrite !(lookup_insert_ne _ "user_id" "Name"), !(lookup_insert_ne _ "user_id" "Company Name"),
      !(lookup_insert_ne _ "user_id" "x_studio_tese"), !(lookup_insert_ne _ "user_id" "team_id"),
      !(lookup_insert_ne _ "user_id" "tag_ids"), !(lookup_insert_ne _ "user_id" "stage_id"),
      !lookup_insert_eq by discriminate.
    cbn [rbind]. rewrite Hint. reflexivity.
  - rewrite !(lookup_insert_ne _ "team_id" "Name"), !(lookup_insert_ne _ "team_id" "Company Name"),
      !(lookup_insert_ne _ "team_id" "x_studio_tese"), !(lookup_insert_ne _ "team_id" "user_id"),
      !(lookup_insert_ne _ "team_id" "tag_ids"), !(lookup_insert_ne _ "team_id" "stage_id"),
      !lookup_insert_eq by discriminate.
    cbn [rbind]. rewrite Hint. reflexivity.
  - rewrite !(lookup_insert_ne _ "stage_id" "Name"), !(lookup_insert_ne _ "stage_id" "Company Name"),
      !(lookup_insert_ne _ "stage_id" "x_studio_tese"), !(lookup_insert_ne _ "stage_id" "user_id"),
      !(lookup_insert_ne _ "stage_id" "tag_ids"), !(lookup_insert_ne _ "stage_id" "team_id"),
      !lookup_insert_eq by discriminate.
    cbn [rbind notna]. rewrite Hint. reflexivity.
Qed.

Lemma numeric_text_reads_as_number_witness :
  int_cell (CStr (str_int (-42))) = Ret (-42) /\
  build_payload (<["user_id" := CStr (str_int (-42))]> acme_row)
  = build_payload (<["user_id" := CInt (-42)]> acme_row).
Proof.
  apply (numeric_text_reads_as_number acme_row "user_id" (-42)).
  - vm_compute. lia.
  - left. reflexivity.
Defined.

(** ** Log entries and line breaks *)

Local Abbreviation LF := (ascii_of_nat 10).

Lemma count_char_app (c : ascii) (a b : string) :
  count_char c (a ++ b)%string = (count_char c a + count_char c b)%nat.
Proof. induction a as [|x a IH]; simpl; [reflexivity | rewrite IH; lia]. Qed.

Lemma count_char_concat (c : ascii) (sep : string) (l : list string) :
  count_char c sep = O ->
  Forall (fun x => count_char c x = O) l ->
  count_char c (String.concat sep l) = O.
Proof.
  intros Hsep Hall. induction Hall as [|x l Hx Hl IH]; [reflexivity|].
  destruct l as [|y l]; [exact Hx|].
  change (String.concat sep (x :: y :: l))
    with (x ++ sep ++ String.concat sep (y :: l))%string.
  rewrite !count_char_app, Hx, Hsep, IH. reflexivity.
Qed.

Lemma count_lf_string_of_uint (d : Decimal.uint) :
  count_char LF (NilEmpty.string_of_uint d) = O.
Proof. induction d; cbn; try assumption; reflexivity. Qed.

Lemma count_lf_str_int (z : Z) : count_char LF (str_int z) = O.
Proof.
  assert (Hu : forall d, count_char LF (NilZero.string_of_uint d) = O).
  { intros d. destruct d as [|u|u|u|u|u|u|u|u|u|u]; [reflexivity|..].
    - exact (count_lf_string_of_uint (Decimal.D0 u)).
    - exact (count_lf_string_of_uint (Decimal.D1 u)).
    - exact (count_lf_string_of_uint (Decimal.D2 u)).
    - exact (count_lf_string_of_uint (Decimal.D3 u)).
    - exact (count_lf_string_of_uint (Decimal.D4 u)).
    - exact (count_lf_string_of_uint (Decimal.D5 u)).
    - exact (count_lf_string_of_uint (Decimal.D6 u)).
    - exact (count_lf_string_of_uint (Decimal.D7 u)).
    - exact (count_lf_string_of_uint (Decimal.D8 u)).
    - exact (count_lf_string_of_uint (Decimal.D9 u)). }
  unfold str_int. destruct z as [|p|p]; cbn [Z.to_int NilZero.string_of_int].
  - reflexivity.
  - apply Hu.
  - cbn [count_char]. rewrite Hu. reflexivity.
Qed.

Lemma count_lf_zero_pad (width : nat) (z : Z) : count_char LF (zero_pad width z) = O.
Proof.
  unfold zero_pad. rewrite count_char_app, count_lf_str_int, Nat.add_0_r.
  apply count_char_concat; [reflexivity|].
  apply List.Forall_forall. intros x Hx. apply repeat_spec in Hx. subst x. reflexivity.
Qed.

Lemma count_lf_strftime_iso (d : datetime) : count_char LF (strftime_iso d) = O.
Proof.
  unfold strftime_iso. rewrite !count_char_app, !count_lf_zero_pad. reflexivity.
Qed.

Lemma hex_digit_not_lf (n : N) : Ascii.eqb LF (hex_digit (N.land n 15)) = false.
Proof.
  assert (Hlt : (N.land n 15 < 16)%N).
  { change 15%N with (N.ones 4). rewrite N.land_ones. apply N.mod_lt. discriminate. }
  destruct (N.land n 15) as [|p]; [reflexivity|].
  do 4 (destruct p as [p|p|]; try reflexivity; try lia).
Qed.

Lemma count_lf_hex_fixed (width : nat) :
  forall n, count_char LF (hex_fixed width n) = O.
Proof.
  induction width as [|width IH]; intros n; [reflexivity|].
  cbn [hex_fixed]. rewrite count_char_app, IH. cbn [count_char].
  rewrite hex_digit_not_lf. reflexivity.
Qed.

Lemma printable_not_lf (c : N) :
  (32 <=? c)%N && (c <=? 126)%N = true -> Ascii.eqb LF (ascii_of_N c) = false.
Proof.
  intros H. apply andb_true_iff in H as [Hlo Hhi].
  apply N.leb_le in Hlo. apply N.leb_le in Hhi.
  apply Ascii.eqb_neq. intros Heq.
  apply (f_equal N_of_ascii) in Heq. rewrite N_ascii_embedding in Heq by lia.
  vm_compute in Heq. subst c. vm_compute in Hlo. destruct (Hlo eq_refl).
Qed.

Lemma count_lf_json_escape (c : N) : count_char LF (json_escape c) = O.
Proof.
  unfold json_escape.
  repeat match goal with
         | |- context [if ?b then _ else _] =>
             lazymatch b with
             | (_ && _) => fail
             | _ => destruct b; [reflexivity|]
             end
         end.
  destruct ((32 <=? c)%N && (c <=? 126)%N) eqn:Hp.
  - cbn [count_char]. rewrite (printable_not_lf _ Hp). reflexivity.
  - destruct (c <? 65536)%N; rewrite !count_char_app, !count_lf_hex_fixed; reflexivity.
Qed.

Lemma count_lf_json_str (s : string) : count_char LF (json_str s) = O.
Proof.
  unfold json_str. rewrite !count_char_app.
  rewrite (count_char_concat LF "" (map json_escape (code_points s))); [reflexivity..|].
  apply List.Forall_forall. intros x Hx. apply List.in_map_iff in Hx as (c & <- & _).
  apply count_lf_json_escape.
Qed.

Lemma count_lf_json_dumps (data : payload) : count_char LF (json_dumps data) = O.
Proof.
  unfold json_dumps, json_int, json_list_str.
  rewrite !count_char_app, !count_lf_json_str, !count_lf_str_int.
  rewrite (count_char_concat LF ", " (map json_str (tag_ids data))); [reflexivity..|].
  apply List.Forall_forall. intros x Hx. apply List.in_map_iff in Hx as (t & <- & _).
  apply count_lf_json_str.
Qed.

(** X18. One outcome, one line. Whatever texts the payload holds, line
    breaks included, a success line has exactly one line feed, the one that
    ends it, and so has a failure line whose description has none, such as
    those for a status code and for a timeout. *)
Theorem log_entries_are_single_lines (d : datetime) (data : payload) :
  (forall status, count_char LF (success_line d data status) = 1%nat) /\
  (forall description,
      count_char LF description = O ->
      count_char LF (failure_line d data description) = 1%nat) /\
  (forall status, count_char LF ("Status code: " ++ str_int status)%string = O) /\
  (forall e, count_char LF (exception_message (Timeout e)) = O).
Proof.
  split; [|split; [|split]].
  - intros status. unfold success_line.
    rewrite !count_char_app, count_lf_strftime_iso, count_lf_json_dumps, count_lf_str_int.
    reflexivity.
  - intros description Hd. unfold failure_line.
    rewrite !count_char_app, count_lf_strftime_iso, count_lf_json_dumps, Hd.
    reflexivity.
  - intros status. rewrite count_char_app, count_lf_str_int. reflexivity.
  - intros e. reflexivity.
Qed.

Lemma log_entries_are_single_lines_witness :
  count_char LF (failure_line sample_time acme_payload "Timeout na requisição") = 1%nat.
Proof.
  apply (proj1 (proj2 (log_entries_are_single_lines sample_time acme_payload))).
  reflexivity.
Defined.

(** A request error whose text has a line break is logged as it is: that
    entry takes two lines of the failure log. *)
Example failure_entry_over_two_lines :
  count_char LF
    (failure_line sample_time acme_payload
       (exception_message (RequestException ("connection aborted" ++ newline ++ "peer reset"))))
  = 2%nat.
Proof. vm_compute. reflexivity. Qed.

(** ** When a payload is built *)


(** An empty [Name] cell does not stop the construction: the payload is
    built with the name [nan]. *)
Example empty_name_becomes_nan :
  build_payload (<["Name" := CNaN]> acme_row)
  = Ret {| name := "nan"; contact_name := "Acme Inc"; x_studio_tese := "x";
           user_id := 5; team_id := 2; tag_ids := ["a"; "b"]%string; stage_id := 10 |}.
Proof. vm_compute. reflexivity. Qed.
